(** * Spendy expense tracker: the ledger, the category registry and the month view

    A shallow embedding of the state and of the handlers of [src/App.js]
    (the [App] component), and the properties of its specification.

    - JavaScript numbers are kept behind the interface [Number]; the program
      runs on the instance [float_Number] (IEEE 754 binary64, the kernel's
      primitive floats), and [Z_Number] is the instance of exact integers.
    - A [Date] is represented by its local-time fields (year, month, day,
      time within the day) under one fixed time zone.
    - A React state setter is a field update of [AppState]; a handler is a
      function from the state of the render it was created in to the next
      state, together with the [Alert] it raised, if any. *)

From Stdlib Require Import ZArith List String Ascii Bool Lia.
From Stdlib Require Import Permutation Sorted.
From Stdlib Require Import Floats DecimalString DecimalZ.
Import ListNotations.

Local Open Scope string_scope.
Local Open Scope Z_scope.

(** ** JavaScript numbers *)

(** The operations on numbers that the program uses: the literals [0] and
    [1], [a + b], [a - b], unary minus and the test [a < b]. *)
Class Number (num : Type) : Type := {
  num_zero : num;
  num_one : num;
  num_add : num -> num -> num;
  num_sub : num -> num -> num;
  num_neg : num -> num;
  num_ltb : num -> num -> bool
}.

(** The numbers of the running program: binary64 floats. *)
#[export] Instance float_Number : Number float := {
  num_zero := 0%float;
  num_one := 1%float;
  num_add := PrimFloat.add;
  num_sub := PrimFloat.sub;
  num_neg := PrimFloat.opp;
  num_ltb := PrimFloat.ltb
}.

(** Exact integers: amounts whose sums are never rounded. *)
#[export] Instance Z_Number : Number Z := {
  num_zero := 0;
  num_one := 1;
  num_add := Z.add;
  num_sub := Z.sub;
  num_neg := Z.opp;
  num_ltb := Z.ltb
}.

(** Addition is exact: associative and commutative, with [0] neutral. *)
Class ExactAdd (num : Type) `{Number num} : Prop := {
  num_add_assoc : forall a b c : num,
    num_add (num_add a b) c = num_add a (num_add b c);
  num_add_comm : forall a b : num, num_add a b = num_add b a;
  num_add_zero_l : forall a : num, num_add num_zero a = a
}.

(** ** JavaScript strings *)

(** A string is a sequence of code units; the model keeps the code units
    below 256. *)

(** WhiteSpace and LineTerminator code units: TAB, LF, VT, FF, CR, SP, NBSP. *)
Definition isWhiteSpace (c : ascii) : bool :=
  let n := N_of_ascii c in
  ((n =? 9) || (n =? 10) || (n =? 11) || (n =? 12) || (n =? 13)
   || (n =? 32) || (n =? 160))%N.

Fixpoint trimStart (s : string) : string :=
  match s with
  | EmptyString => EmptyString
  | String c r => if isWhiteSpace c then trimStart r else s
  end.

Fixpoint trimEnd (s : string) : string :=
  match s with
  | EmptyString => EmptyString
  | String c r =>
      let r' := trimEnd r in
      if isWhiteSpace c && (r' =? "")%string then EmptyString else String c r'
  end.

(** [String.prototype.trim]. *)
Definition trim (s : string) : string := trimEnd (trimStart s).

Fixpoint allWhiteSpace (s : string) : bool :=
  match s with
  | EmptyString => true
  | String c r => isWhiteSpace c && allWhiteSpace r
  end.

Definition firstChar (s : string) : option ascii :=
  match s with
  | EmptyString => None
  | String c _ => Some c
  end.

Fixpoint lastChar (s : string) : option ascii :=
  match s with
  | EmptyString => None
  | String c EmptyString => Some c
  | String _ r => lastChar r
  end.

(** [Array.prototype.includes] on an array of strings. *)
Definition includes (l : list string) (s : string) : bool :=
  existsb (String.eqb s) l.

(** [n.toString()] for an integral number [n]. *)
Definition toString (n : Z) : string := NilZero.string_of_int (Z.to_int n).

(** ** Dates *)

Module JSDate.

Record Date : Type := mkDate {
  year : Z;
  month : Z;      (* 0 .. 11 *)
  day : Z;        (* 1 .. daysInMonth *)
  msOfDay : Z     (* time within the day *)
}.

Definition getFullYear (d : Date) : Z := year d.
Definition getMonth (d : Date) : Z := month d.
Definition getDate (d : Date) : Z := day d.

(** [new Date(d)], for [d] a date or the ISO string of one: a copy of the
    instant. *)
Definition newDate (d : Date) : Date := d.

(** [d.toISOString()], kept as the instant that the string denotes:
    [new Date] of the string is that instant again. *)
Definition toISOString (d : Date) : Date := d.

Definition isLeap (y : Z) : bool :=
  ((y mod 4 =? 0) && negb (y mod 100 =? 0)) || (y mod 400 =? 0).

Definition daysInMonth (y m : Z) : Z :=
  if m =? 1 then (if isLeap y then 29 else 28)
  else if (m =? 3) || (m =? 5) || (m =? 8) || (m =? 10) then 30
  else 31.

Definition nextMonth (y m : Z) : Z * Z :=
  if m =? 11 then (y + 1, 0) else (y, m + 1).

Definition prevMonth (y m : Z) : Z * Z :=
  if m =? 0 then (y - 1, 11) else (y, m - 1).

(** MakeDay: a day of the month outside [1 .. daysInMonth] is carried into
    the months before or after. *)
Fixpoint carryDay (fuel : nat) (y m d : Z) : Z * Z * Z :=
  match fuel with
  | O => (y, m, d)
  | S k =>
      if d <? 1 then
        let '(y', m') := prevMonth y m in
        carryDay k y' m' (d + daysInMonth y' m')
      else if daysInMonth y m <? d then
        let '(y', m') := nextMonth y m in
        carryDay k y' m' (d - daysInMonth y m)
      else (y, m, d)
  end.

(** [d.setDate(n)]. *)
Definition setDate (d : Date) (n : Z) : Date :=
  let '(y, m, dd) := carryDay (S (Z.to_nat (Z.abs n))) (year d) (month d) n in
  mkDate y m dd (msOfDay d).

Definition validMonth (m : Z) : Prop := 0 <= m <= 11.

Definition valid (d : Date) : Prop :=
  validMonth (month d) /\ 1 <= day d <= daysInMonth (year d) (month d).

End JSDate.

Import JSDate.

(** ** [parseFloat] on binary64 numbers *)

Module JSFloat.

Definition digitOf (c : ascii) : option Z :=
  let n := Z.of_N (N_of_ascii c) in
  if (48 <=? n) && (n <=? 57) then Some (n - 48) else None.

(** The longest run of decimal digits at the head of [s]: the value read so
    far, the number of digits, and what follows them. *)
Fixpoint readDigits (s : string) (acc count : Z) : Z * Z * string :=
  match s with
  | EmptyString => (acc, count, s)
  | String c r =>
      match digitOf c with
      | Some d => readDigits r (10 * acc + d) (count + 1)
      | None => (acc, count, s)
      end
  end.

Definition readSign (s : string) : bool * string :=
  match s with
  | String "+" r => (false, r)
  | String "-" r => (true, r)
  | _ => (false, s)
  end.

(** ExponentPart, when one is there in full; 0 otherwise. *)
Definition readExponent (s : string) : Z :=
  match s with
  | String c r =>
      if (Ascii.eqb c "e" || Ascii.eqb c "E")%bool then
        let '(neg, r1) := readSign r in
        let '(v, n, _) := readDigits r1 0 0 in
        if n =? 0 then 0 else if neg then - v else v
      else 0
  | EmptyString => 0
  end.

(** [p / q] rounded to the nearest integer, ties to even ([0 < q]). *)
Definition roundHalfEven (p q : Z) : Z :=
  let d := p / q in
  let r := p mod q in
  if 2 * r <? q then d
  else if q <? 2 * r then d + 1
  else if Z.even d then d else d + 1.

Definition scaleBy (p q e : Z) : Z * Z :=
  if 0 <=? e then (p, q * 2 ^ e) else (p * 2 ^ (- e), q).

(** The binary64 number nearest to [p / q], for [0 < p] and [0 < q]:
    a 53-bit significand [m] and an exponent [e >= -1074]. *)
Definition nearestDouble (p q : Z) : float :=
  let e0 := Z.log2 p - Z.log2 q - 52 in
  let '(a0, b0) := scaleBy p q e0 in
  let e1 := if a0 / b0 <? 2 ^ 52 then e0 - 1
            else if 2 ^ 53 <=? a0 / b0 then e0 + 1 else e0 in
  let e := Z.max e1 (-1074) in
  let '(a, b) := scaleBy p q e in
  let m := roundHalfEven a b in
  if 971 <? e then infinity
  else if (e =? 971) && (2 ^ 53 <=? m) then infinity
  else Z.ldexp (PrimFloat.of_uint63 (Uint63.of_Z m)) e.

(** The number value of the decimal literal [m * 10 ^ e], [0 <= m]. *)
Definition decimalToDouble (m e : Z) : float :=
  if m =? 0 then 0%float
  else if 0 <=? e then nearestDouble (m * 10 ^ e) 1
  else nearestDouble m (10 ^ (- e)).

(** [parseFloat(input)]: leading white space is skipped, the longest
    prefix that is a StrDecimalLiteral is read, and [NaN] is the answer
    when there is none. *)
Definition parseFloat (input : string) : float :=
  let '(neg, s1) := readSign (trimStart input) in
  let signed (x : float) := if neg then PrimFloat.opp x else x in
  if String.prefix "Infinity" s1 then signed infinity
  else
    let '(ip, ni, s2) := readDigits s1 0 0 in
    let '(m, nf, s3) :=
      match s2 with
      | String "." r => readDigits r ip 0
      | _ => (ip, 0, s2)
      end in
    if (ni =? 0) && (nf =? 0) then nan
    else signed (decimalToDouble m (readExponent s3 - nf)).

End JSFloat.

(** ** The data of the application *)

(** The [type] of a transaction: the strings ['Income'] and ['Expense']. *)
Module TxType.

Inductive t : Type := Income | Expense.

(** [a === b] *)
Definition eqb (a b : t) : bool :=
  match a, b with
  | Income, Income | Expense, Expense => true
  | _, _ => false
  end.

(** The string itself, as a template literal prints it. *)
Definition name (a : t) : string :=
  match a with
  | Income => "Income"
  | Expense => "Expense"
  end.

End TxType.

(** A transaction record.  [dateISO] holds [transactionDate.toISOString()],
    kept as the instant printed (see [toISOString]). *)
Module Tx.

Record t {num : Type} : Type := mk {
  id : string;
  dateISO : Date;
  displayDate : string;
  type : TxType.t;
  amount : num;
  category : string;
  note : string
}.
Arguments t : clear implicits.
Arguments mk {num}.

(** [{ ...t, category: c }] *)
Definition withCategory {num : Type} (x : t num) (c : string) : t num :=
  mk (id x) (dateISO x) (displayDate x) (type x) (amount x) c (note x).

End Tx.

(** The form of the "add transaction" modal ([newTransaction]); [amount] is
    the text of the input field. *)
Module Form.

Record t : Type := mk {
  type : TxType.t;
  amount : string;
  category : string;
  note : string
}.

Definition withCategory (f : t) (c : string) : t :=
  mk (type f) (amount f) c (note f).

(** The form after a reset. *)
Definition blank : t := mk TxType.Expense "" "" "".

End Form.

(** The registry [categories]: an object with the keys [Income] and
    [Expense], each an array of names. *)
Module Categories.

Record t : Type := mk {
  Income : list string;
  Expense : list string
}.

(** [categories[type]] *)
Definition get (c : t) (ty : TxType.t) : list string :=
  match ty with
  | TxType.Income => Income c
  | TxType.Expense => Expense c
  end.

(** [{ ...c, [type]: l }] *)
Definition set (c : t) (ty : TxType.t) (l : list string) : t :=
  match ty with
  | TxType.Income => mk l (Expense c)
  | TxType.Expense => mk (Income c) l
  end.

Definition initial : t :=
  mk ["Salary"; "Gift"; "Freelance"] ["Food"; "Transport"; "Shopping"; "Bills"].

End Categories.

(** A group of the grouped view. *)
Module Group.

Record t {num : Type} : Type := mk {
  key : string;
  category : string;
  type : TxType.t;
  total : num;
  transactions : list (Tx.t num)
}.
Arguments t : clear implicits.
Arguments mk {num}.

End Group.

Record Alert : Type := mkAlert {
  alertTitle : string;
  alertMessage : string
}.

Record CategoryToDelete : Type := mkCategoryToDelete {
  ctdName : string;
  ctdType : TxType.t
}.

(** What a handler reads from its host: the clock ([new Date()] and
    [Date.now()]), the locale's date format and [parseFloat]. *)
Record Host {num : Type} : Type := mkHost {
  now : Date;
  dateNow : Z;
  toLocaleDateString : Date -> string;
  parseFloat : string -> num
}.
Arguments Host : clear implicits.
Arguments mkHost {num}.

(** The state of the component that the handlers below read or set. *)
Record AppState {num : Type} : Type := mkAppState {
  transactions : list (Tx.t num);
  categories : Categories.t;
  modalVisible : bool;
  newTransaction : Form.t;
  newCategoryName : string;
  isAddingCategory : bool;
  currentDate : Date;
  deleteModalVisible : bool;
  categoryToDelete : option CategoryToDelete;
  reassignCategory : string
}.
Arguments AppState : clear implicits.
Arguments mkAppState {num}.

Section App.

Context {num : Type} {numOps : Number num}.

Local Abbreviation State := (AppState num).
Local Abbreviation Transaction := (Tx.t num).

(** *** State setters *)

Definition setTransactions (v : list Transaction) (s : State) : State :=
  mkAppState v (categories s) (modalVisible s) (newTransaction s)
    (newCategoryName s) (isAddingCategory s) (currentDate s)
    (deleteModalVisible s) (categoryToDelete s) (reassignCategory s).

Definition setCategories (v : Categories.t) (s : State) : State :=
  mkAppState (transactions s) v (modalVisible s) (newTransaction s)
    (newCategoryName s) (isAddingCategory s) (currentDate s)
    (deleteModalVisible s) (categoryToDelete s) (reassignCategory s).

Definition setModalVisible (v : bool) (s : State) : State :=
  mkAppState (transactions s) (categories s) v (newTransaction s)
    (newCategoryName s) (isAddingCategory s) (currentDate s)
    (deleteModalVisible s) (categoryToDelete s) (reassignCategory s).

Definition setNewTransaction (v : Form.t) (s : State) : State :=
  mkAppState (transactions s) (categories s) (modalVisible s) v
    (newCategoryName s) (isAddingCategory s) (currentDate s)
    (deleteModalVisible s) (categoryToDelete s) (reassignCategory s).

Definition setNewCategoryName (v : string) (s : State) : State :=
  mkAppState (transactions s) (categories s) (modalVisible s)
    (newTransaction s) v (isAddingCategory s) (currentDate s)
    (deleteModalVisible s) (categoryToDelete s) (reassignCategory s).

Definition setIsAddingCategory (v : bool) (s : State) : State :=
  mkAppState (transactions s) (categories s) (modalVisible s)
    (newTransaction s) (newCategoryName s) v (currentDate s)
    (deleteModalVisible s) (categoryToDelete s) (reassignCategory s).

Definition setDeleteModalVisible (v : bool) (s : State) : State :=
  mkAppState (transactions s) (categories s) (modalVisible s)
    (newTransaction s) (newCategoryName s) (isAddingCategory s)
    (currentDate s) v (categoryToDelete s) (reassignCategory s).

Definition setCategoryToDelete (v : option CategoryToDelete) (s : State)
  : State :=
  mkAppState (transactions s) (categories s) (modalVisible s)
    (newTransaction s) (newCategoryName s) (isAddingCategory s)
    (currentDate s) (deleteModalVisible s) v (reassignCategory s).

Definition setReassignCategory (v : string) (s : State) : State :=
  mkAppState (transactions s) (categories s) (modalVisible s)
    (newTransaction s) (newCategoryName s) (isAddingCategory s)
    (currentDate s) (deleteModalVisible s) (categoryToDelete s) v.

(** *** Helpers *)

Definition isSameMonth (d1 d2 : Date) : bool :=
  let date1 := newDate d1 in
  let date2 := newDate d2 in
  (getMonth date1 =? getMonth date2)
  && (getFullYear date1 =? getFullYear date2).

Definition getFilteredTransactions (s : State) : list Transaction :=
  filter (fun t => isSameMonth (Tx.dateISO t) (currentDate s))
    (transactions s).

(** *** Totals *)

Record Totals : Type := mkTotals {
  income : num;
  expense : num;
  balance : num
}.

(** [Number(x)] of a number [x]. *)
Definition toNumber (x : num) : num := x.

(** [filteredTransactions.filter(t => t.type === ty)
      .reduce((acc, curr) => acc + Number(curr.amount), 0)] *)
Definition sumOfType (ty : TxType.t) (filtered : list Transaction) : num :=
  fold_left (fun acc curr => num_add acc (toNumber (Tx.amount curr)))
    (filter (fun t => TxType.eqb (Tx.type t) ty) filtered) num_zero.

Definition getTotals (filtered : list Transaction) : Totals :=
  let income := sumOfType TxType.Income filtered in
  let expense := sumOfType TxType.Expense filtered in
  mkTotals income expense (num_sub income expense).

(** *** Grouping *)

(** [`${t.type}-${t.category}`] *)
Definition groupKey (t : Transaction) : string :=
  (TxType.name (Tx.type t) ++ "-" ++ Tx.category t)%string.

(** One pass of the [forEach] over the object [groups], kept as the list
    of its values in the order their keys were created: the group under
    the key of [t] is created when there is none, then [t] is pushed to
    its transactions and added to its total. *)
Fixpoint addToGroups (groups : list (Group.t num)) (t : Transaction)
  : list (Group.t num) :=
  match groups with
  | [] =>
      [Group.mk (groupKey t) (Tx.category t) (Tx.type t)
         (num_add num_zero (Tx.amount t)) ([] ++ [t])%list]
  | g :: rest =>
      if (Group.key g =? groupKey t)%string then
        Group.mk (Group.key g) (Group.category g) (Group.type g)
          (num_add (Group.total g) (Tx.amount t))
          (Group.transactions g ++ [t])%list :: rest
      else g :: addToGroups rest t
  end.

(** The comparator given to [sort]. *)
Definition compareGroups (a b : Group.t num) : num :=
  if negb (TxType.eqb (Group.type a) (Group.type b)) then
    if TxType.eqb (Group.type a) TxType.Income
    then num_neg num_one else num_one
  else num_sub (Group.total b) (Group.total a).

(** [Array.prototype.sort(comparefn)].  ECMAScript fixes the result when
    [comparefn] is a consistent comparator on the elements: the stable
    arrangement in which no element stands before one it has to follow,
    [x] having to follow [y] when [comparefn(x, y) > 0] (a [NaN] result
    counts as [0]).  Otherwise the order is implementation-defined, and only
    that the result holds the same elements is common to all engines.
    [sort] is the insertion of the elements one after the other, from the
    last to the first, each moved behind the elements it has to follow up to
    the first one it need not follow.  On a consistent comparator this is
    the arrangement that ECMAScript fixes; on another one it is the
    arrangement of one admissible engine, so the statements on the order of
    the result are made under the consistency of the comparator or, at a
    given input, together with the answers of the comparator they rest
    on. *)
Fixpoint sortInsert {A : Type} (comparefn : A -> A -> num) (x : A)
  (l : list A) : list A :=
  match l with
  | [] => [x]
  | y :: rest =>
      if num_ltb num_zero (comparefn x y)
      then y :: sortInsert comparefn x rest
      else x :: y :: rest
  end.

Definition sort {A : Type} (comparefn : A -> A -> num) (l : list A)
  : list A :=
  fold_right (sortInsert comparefn) [] l.

Definition getGroupedTransactions (filtered : list Transaction)
  : list (Group.t num) :=
  let groups := fold_left addToGroups filtered [] in
  sort compareGroups groups.

(** *** Handlers *)

Definition Handler : Type := State -> option Alert * State.

Definition handleAddTransaction (host : Host num) : Handler := fun s =>
  if ((Form.amount (newTransaction s) =? "")
      || (Form.category (newTransaction s) =? ""))%string then
    (Some (mkAlert "Missing Info"
             "Please enter an amount and select a category."), s)
  else
    let now := now host in
    let transactionDate := newDate (currentDate s) in
    let transactionDate := setDate transactionDate (getDate now) in
    let transactionDate :=
      if negb (getMonth transactionDate =? getMonth (currentDate s))
      then setDate transactionDate 0
      else transactionDate in
    let transaction :=
      Tx.mk (toString (dateNow host))
        (toISOString transactionDate)
        (toLocaleDateString host transactionDate)
        (Form.type (newTransaction s))
        (parseFloat host (Form.amount (newTransaction s)))
        (Form.category (newTransaction s))
        (Form.note (newTransaction s)) in
    (None,
     setIsAddingCategory false
       (setNewCategoryName ""
          (setNewTransaction Form.blank
             (setModalVisible false
                (setTransactions (transaction :: transactions s) s))))).

(** The "Delete" button of [confirmDelete(id)]. *)
Definition confirmDelete (id : string) : Handler := fun s =>
  (None,
   setTransactions
     (filter (fun t => negb (Tx.id t =? id)%string) (transactions s)) s).

Definition handleAddNewCategory : Handler := fun s =>
  if (trim (newCategoryName s) =? "")%string then (None, s)
  else if includes (Categories.get (categories s)
                      (Form.type (newTransaction s)))
            (trim (newCategoryName s)) then
    (Some (mkAlert "Error" "Category already exists."), s)
  else
    let type := Form.type (newTransaction s) in
    (None,
     setIsAddingCategory false
       (setNewCategoryName ""
          (setNewTransaction
             (Form.withCategory (newTransaction s)
                (trim (newCategoryName s)))
             (setCategories
                (Categories.set (categories s) type
                   (Categories.get (categories s) type
                    ++ [trim (newCategoryName s)])%list)
                s)))).

(** [t.category === categoryName && t.type === type] *)
Definition dependsOn (categoryName : string) (type : TxType.t)
  (t : Transaction) : bool :=
  (Tx.category t =? categoryName)%string && TxType.eqb (Tx.type t) type.

Definition executeCategoryDeletion (categoryName : string)
  (type : TxType.t) (action : string) : Handler := fun s =>
  let updatedTransactions := transactions s in
  let finish (updatedTransactions : list Transaction) : option Alert * State :=
    let s1 := setTransactions updatedTransactions s in
    let s2 :=
      setCategories
        (Categories.set (categories s1) type
           (filter (fun c => negb (c =? categoryName)%string)
              (Categories.get (categories s1) type))) s1 in
    let s3 :=
      if (Form.category (newTransaction s) =? categoryName)%string
      then setNewTransaction
             (Form.withCategory (newTransaction s2) "") s2
      else s2 in
    (None,
     setReassignCategory ""
       (setCategoryToDelete None (setDeleteModalVisible false s3))) in
  if (action =? "delete")%string then
    finish
      (filter (fun t => negb (dependsOn categoryName type t))
         updatedTransactions)
  else if (action =? "reassign")%string then
    if (reassignCategory s =? "")%string then
      (Some (mkAlert "Error" "Please select a category to reassign to."), s)
    else
      finish
        (map (fun t =>
                if dependsOn categoryName type t
                then Tx.withCategory t (reassignCategory s)
                else t)
           updatedTransactions)
  else finish updatedTransactions.

(** What [handleDeleteCategoryInitiation] leads to: the conflict modal is
    opened, or a confirmation is asked whose "Delete" button runs the
    given handler. *)
Inductive Initiation : Type :=
| OpenModal (s : State)
| ConfirmPrompt (onPress : Handler).

Definition handleDeleteCategoryInitiation (categoryName : string)
  (s : State) : Initiation :=
  let type := Form.type (newTransaction s) in
  let hasTransactions :=
    existsb (fun t => (Tx.category t =? categoryName)%string
                      && TxType.eqb (Tx.type t) type) (transactions s) in
  if hasTransactions then
    OpenModal
      (setDeleteModalVisible true
         (setCategoryToDelete (Some (mkCategoryToDelete categoryName type)) s))
  else ConfirmPrompt (executeCategoryDeletion categoryName type "delete").

End App.

(** ** Notions the properties of the grouped view are stated with *)

Section Views.

Context {num : Type} {numOps : Number num}.

(** The totals of the groups added up, in the order of the list. *)
Definition sumGroupTotals (groups : list (Group.t num)) : num :=
  fold_left (fun acc g => num_add acc (Group.total g)) groups num_zero.

(** [t] has the type and the category of the group [g]. *)
Definition inGroup (g : Group.t num) (t : Tx.t num) : bool :=
  TxType.eqb (Tx.type t) (Group.type g)
  && (Tx.category t =? Group.category g)%string.

(** The key of the pair of a type and a category. *)
Definition groupKeyOf (ty : TxType.t) (c : string) : string :=
  (TxType.name ty ++ "-" ++ c)%string.

(** [g] is the group of its type and category over the transactions [l]:
    it has the key of the pair, its transactions are those of [l] with the
    pair, in the order of [l], there is one at least, and its total is
    their amounts added from 0 in that order. *)
Definition groupOf (l : list (Tx.t num)) (g : Group.t num) : Prop :=
  Group.key g = groupKeyOf (Group.type g) (Group.category g)
  /\ Group.transactions g = filter (inGroup g) l
  /\ Group.transactions g <> []
  /\ Group.total g
     = fold_left (fun acc t => num_add acc (Tx.amount t))
         (Group.transactions g) num_zero.

(** What the comparator says of two groups when numbers are comparable:
    [g1] has to come after [g2]. *)
Definition mustFollow (g1 g2 : Group.t num) : bool :=
  match Group.type g1, Group.type g2 with
  | TxType.Income, TxType.Expense => false
  | TxType.Expense, TxType.Income => true
  | _, _ => num_ltb (Group.total g1) (Group.total g2)
  end.

(** On [a], [b], [c] the test [<] and the sign of a difference behave as
    on a total order: [0 < b - a] says [a < b], not both [a < b] and
    [b < a], and [a < c] gives [a < b] or [b < c]. *)
Definition orderedTriple (a b c : num) : bool :=
  Bool.eqb (num_ltb num_zero (num_sub b a)) (num_ltb a b)
  && (negb (num_ltb a b) || negb (num_ltb b a))
  && (negb (num_ltb a c) || num_ltb a b || num_ltb b c).

(** The numbers of [totals] are comparable with one another (no [NaN]
    among several values), and [-1 < 0 < 1]. *)
Definition comparable (totals : list num) : bool :=
  num_ltb num_zero num_one
  && negb (num_ltb num_zero (num_neg num_one))
  && forallb (fun a =>
       forallb (fun b =>
         forallb (fun c => orderedTriple a b c) totals) totals) totals.

(** [g1] may stand before [g2]: no Expense group before an Income group,
    and within a type no smaller total first. *)
Definition groupOrder (g1 g2 : Group.t num) : Prop :=
  (Group.type g1 = TxType.Expense -> Group.type g2 = TxType.Expense)
  /\ (Group.type g1 = Group.type g2 ->
      num_ltb (Group.total g1) (Group.total g2) = false).

End Views.

(** ** A host and a ledger on binary64 numbers *)

(** The date format of the [en-US] locale: [M/D/YYYY]. *)
Definition enUS (d : Date) : string :=
  (toString (getMonth d + 1) ++ "/" ++ toString (getDate d) ++ "/"
   ++ toString (getFullYear d))%string.

(** The host at local date [today], with the clock reading [ms]. *)
Definition hostAt (today : Date) (ms : Z) : Host float :=
  mkHost today ms enUS JSFloat.parseFloat.

(** A state with the ledger [txs], the seeded registry, the form [form] and
    the reference month of [viewed]. *)
Definition stateOf {num : Type} (txs : list (Tx.t num)) (form : Form.t)
  (viewed : Date) : AppState num :=
  mkAppState txs Categories.initial true form "" false viewed false None "".

Definition march2025 (d : Z) : Date := mkDate 2025 2 d 43200000.

(** A transaction of March 2025 with the given identity, type, amount and
    category. *)
Definition txOf {num : Type} (id : string) (ty : TxType.t) (amount : num)
  (category : string) : Tx.t num :=
  Tx.mk id (march2025 15) "3/15/2025" ty amount category "".

(** A ledger of March 2025, most recent first.  The last record is an
    Income under the name "Food". *)
Definition sampleLedger : list (Tx.t float) :=
  [ txOf "1741000000005" TxType.Expense 12.5%float "Food";
    txOf "1741000000004" TxType.Income 1000%float "Salary";
    txOf "1741000000003" TxType.Expense 7.25%float "Food";
    txOf "1741000000002" TxType.Expense 40%float "Bills";
    txOf "1741000000001" TxType.Income 20%float "Food" ].

(** The conflict modal open on the Expense category "Food", with [target]
    picked for the reassignment. *)
Definition deletionState (target : string) : AppState float :=
  setReassignCategory target
    (setCategoryToDelete (Some (mkCategoryToDelete "Food" TxType.Expense))
       (setDeleteModalVisible true
          (stateOf sampleLedger Form.blank (march2025 1)))).

(** The "add transaction" modal open on the month of [viewed], over the
    ledger [txs], with an Expense typed in. *)
Definition addState (txs : list (Tx.t float)) (amount category : string)
  (viewed : Date) : AppState float :=
  stateOf txs (Form.mk TxType.Expense amount category "lunch") viewed.

(** The Expense [amount] typed in for [category], then "Save Transaction"
    at the clock reading [ms] of March 15th, 2025. *)
Definition typeAndSave (amount category : string) (ms : Z)
  (s : AppState float) : AppState float :=
  snd (handleAddTransaction (hostAt (march2025 15) ms)
         (setNewTransaction (Form.mk TxType.Expense amount category "") s)).

(** Three saves in an empty ledger; the second amount is a lone ".". *)
Definition ledgerWithDot : AppState float :=
  typeAndSave "5" "Transport" 1742040000003
    (typeAndSave "." "Food" 1742040000002
       (typeAndSave "10" "Bills" 1742040000001
          (stateOf [] Form.blank (march2025 1)))).

(** Three saves of ordinary prices. *)
Definition ledgerOfPrices : AppState float :=
  typeAndSave "0.10" "Food" 1742040000003
    (typeAndSave "0.20" "Transport" 1742040000002
       (typeAndSave "12.50" "Food" 1742040000001
          (stateOf [] Form.blank (march2025 1)))).

(** A ledger with whole amounts. *)
Definition wholeLedger : list (Tx.t Z) :=
  [ txOf "1741000000005" TxType.Expense 12 "Food";
    txOf "1741000000004" TxType.Income 1000 "Salary";
    txOf "1741000000003" TxType.Expense 7 "Food";
    txOf "1741000000002" TxType.Expense 40 "Bills";
    txOf "1741000000001" TxType.Income 20 "Food" ].

(** ** The rest of the component: navigation between months, the prompts
    of the category deletion, the controls of the form *)

(** [d.setMonth(m)]: MakeDay takes the month modulo 12 with the years
    carried, then the day of the month of [d], carried when the month is
    shorter. *)
Definition setMonth (d : Date) (m : Z) : Date :=
  let '(y', m', dd) :=
    carryDay (S (Z.to_nat (Z.abs (day d)))) (year d + m / 12) (m mod 12)
      (day d) in
  mkDate y' m' dd (msOfDay d).

(** [new Date(y, m, d)]: midnight of the day; a year from 0 to 99 stands
    for 1900 plus that year. *)
Definition newDateYMD (y m d : Z) : Date :=
  let yr := if (0 <=? y) && (y <=? 99) then 1900 + y else y in
  let '(y', m', dd) :=
    carryDay (S (Z.to_nat (Z.abs d))) (yr + m / 12) (m mod 12) d in
  mkDate y' m' dd 0.

(** [d1 > d2] on dates compares the instants: for dates of the calendar,
    the fields one after the other. *)
Definition dateGtb (d1 d2 : Date) : bool :=
  (year d2 <? year d1)
  || ((year d1 =? year d2)
      && ((month d2 <? month d1)
          || ((month d1 =? month d2)
              && ((day d2 <? day d1)
                  || ((day d1 =? day d2) && (msOfDay d2 <? msOfDay d1)))))).

(** The first argument is [new Date()]. *)
Definition isFutureMonth (now date : Date) : bool :=
  let viewed := newDateYMD (getFullYear date) (getMonth date) 1 in
  let current := newDateYMD (getFullYear now) (getMonth now) 1 in
  dateGtb viewed current.

(** The state of the month picker. *)
Record Picker : Type := mkPicker {
  pickerVisible : bool;
  pickerYear : Z
}.

Section Screen.

Context {num : Type} {numOps : Number num}.

Local Abbreviation State := (AppState num).

Definition setCurrentDate (v : Date) (s : State) : State :=
  mkAppState (transactions s) (categories s) (modalVisible s)
    (newTransaction s) (newCategoryName s) (isAddingCategory s) v
    (deleteModalVisible s) (categoryToDelete s) (reassignCategory s).

Definition changeMonth (direction : Z) (s : State) : State :=
  let newDate := newDate (currentDate s) in
  let newDate := setMonth newDate (getMonth (currentDate s) + direction) in
  setCurrentDate newDate s.

Definition openPicker (s : State) (p : Picker) : Picker :=
  mkPicker true (getFullYear (currentDate s)).

Definition selectMonthYear (monthIndex : Z) (s : State) (p : Picker)
  : State * Picker :=
  let newDate := newDateYMD (pickerYear p) monthIndex 1 in
  (setCurrentDate newDate s, mkPicker false (pickerYear p)).

(** The chips of the conflict modal:
    [categories[categoryToDelete?.type]?.filter(c => c !== categoryToDelete?.name)]. *)
Definition reassignOptions (s : State) : list string :=
  match categoryToDelete s with
  | Some c =>
      filter (fun x => negb (x =? ctdName c)%string)
        (Categories.get (categories s) (ctdType c))
  | None => []
  end.

(** The "Cancel" button of the conflict modal. *)
Definition cancelDeletion (s : State) : State :=
  setReassignCategory ""
    (setCategoryToDelete None (setDeleteModalVisible false s)).

(** The controls of the form of the "add transaction" modal. *)
Definition pickType (ty : TxType.t) (s : State) : State :=
  setNewTransaction
    (Form.mk ty (Form.amount (newTransaction s)) ""
       (Form.note (newTransaction s))) s.

Definition typeAmount (text : string) (s : State) : State :=
  setNewTransaction
    (Form.mk (Form.type (newTransaction s)) text
       (Form.category (newTransaction s)) (Form.note (newTransaction s))) s.

Definition typeNote (text : string) (s : State) : State :=
  setNewTransaction
    (Form.mk (Form.type (newTransaction s)) (Form.amount (newTransaction s))
       (Form.category (newTransaction s)) text) s.

Definition pickCategory (cat : string) (s : State) : State :=
  setNewTransaction (Form.withCategory (newTransaction s) cat) s.

(** *** The component as a transition system *)

(** What the user can do.  [OpenAddModal] carries [new Date()] of the
    render, [PressSave] the host of the moment, [SelectMonthYear] the year
    shown by the picker.  A control is enabled when the component renders it
    enabled; that a modal covers the controls under it is not assumed. *)
Inductive Event : Type :=
| OpenAddModal (now : Date)
| CloseAddModal
| PickType (ty : TxType.t)
| TypeAmount (text : string)
| TypeNote (text : string)
| StartAddingCategory
| StopAddingCategory
| TypeCategoryName (text : string)
| PressAddCategory
| PickCategory (cat : string)
| LongPressCategory (cat : string)
| PressSave (host : Host num)
| LongPressTransaction (id : string)
| PressDeleteAll
| PickReassign (cat : string)
| PressReassign
| CancelDeletion
| BackFromDeletion
| ChangeMonth (forward : bool)
| SelectMonthYear (pickerYear monthIndex : Z).

(** The control is not on the screen or is disabled; the handler stops on
    reading a property of [null]; or the handler runs to the next state. *)
Inductive Outcome : Type :=
| Disabled
| TypeError
| Next (s : State).

Definition whenever (b : bool) (o : Outcome) : Outcome :=
  if b then o else Disabled.

Definition step (e : Event) (s : State) : Outcome :=
  let chips := Categories.get (categories s) (Form.type (newTransaction s)) in
  match e with
  | OpenAddModal now =>
      whenever (negb (isFutureMonth now (currentDate s)))
        (Next (setModalVisible true s))
  | CloseAddModal => whenever (modalVisible s) (Next (setModalVisible false s))
  | PickType ty => whenever (modalVisible s) (Next (pickType ty s))
  | TypeAmount text => whenever (modalVisible s) (Next (typeAmount text s))
  | TypeNote text => whenever (modalVisible s) (Next (typeNote text s))
  | StartAddingCategory =>
      whenever (modalVisible s && negb (isAddingCategory s))
        (Next (setIsAddingCategory true s))
  | StopAddingCategory =>
      whenever (modalVisible s && isAddingCategory s)
        (Next (setIsAddingCategory false s))
  | TypeCategoryName text =>
      whenever (modalVisible s && isAddingCategory s)
        (Next (setNewCategoryName text s))
  | PressAddCategory =>
      whenever (modalVisible s && isAddingCategory s)
        (Next (snd (handleAddNewCategory s)))
  | PickCategory cat =>
      whenever (modalVisible s && negb (isAddingCategory s) && includes chips cat)
        (Next (pickCategory cat s))
  | LongPressCategory cat =>
      whenever (modalVisible s && negb (isAddingCategory s) && includes chips cat)
        match handleDeleteCategoryInitiation cat s with
        | OpenModal s' => Next s'
        | ConfirmPrompt onPress => Next (snd (onPress s))
        end
  | PressSave host =>
      whenever (modalVisible s) (Next (snd (handleAddTransaction host s)))
  | LongPressTransaction id => Next (snd (confirmDelete id s))
  | PressDeleteAll =>
      whenever (deleteModalVisible s)
        match categoryToDelete s with
        | Some c =>
            Next (snd (executeCategoryDeletion (ctdName c) (ctdType c)
                         "delete" s))
        | None => TypeError
        end
  | PickReassign cat =>
      whenever (deleteModalVisible s && includes (reassignOptions s) cat)
        (Next (setReassignCategory cat s))
  | PressReassign =>
      whenever (deleteModalVisible s && negb (reassignCategory s =? "")%string)
        match categoryToDelete s with
        | Some c =>
            Next (snd (executeCategoryDeletion (ctdName c) (ctdType c)
                         "reassign" s))
        | None => TypeError
        end
  | CancelDeletion => whenever (deleteModalVisible s) (Next (cancelDeletion s))
  | BackFromDeletion =>
      whenever (deleteModalVisible s) (Next (setDeleteModalVisible false s))
  | ChangeMonth forward =>
      Next (changeMonth (if forward then 1 else -1) s)
  | SelectMonthYear pickerYear monthIndex =>
      whenever ((0 <=? monthIndex) && (monthIndex <=? 11))
        (Next (fst (selectMonthYear monthIndex s (mkPicker true pickerYear))))
  end.

(** The state of a first run on the day [today]: the initial values of the
    [useState] calls. *)
Definition initialState (today : Date) : State :=
  mkAppState [] Categories.initial false Form.blank "" false today false None "".

(** The states the user can bring the component to. *)
Inductive reachable (today : Date) : State -> Prop :=
| reachable_initial : reachable today (initialState today)
| reachable_step (e : Event) (s s' : State) :
    reachable today s -> step e s = Next s' -> reachable today s'.

(** Every transaction has a category of the registry list of its type. *)
Definition ledgerIntegrity (s : State) : Prop :=
  forall t, In t (transactions s) ->
            In (Tx.category t) (Categories.get (categories s) (Tx.type t)).

End Screen.

(** What every state met in use satisfies: the names of each registry
    list are pairwise distinct, not empty and trimmed; the category of the
    form is empty or a chip of the type of the form; an open conflict modal
    has its category; the date on display is a date of the calendar; no
    transaction has the empty category. *)
Definition wellFormed {num : Type} (s : AppState num) : Prop :=
  (forall ty, NoDup (Categories.get (categories s) ty))
  /\ (forall ty c, In c (Categories.get (categories s) ty) ->
                   c <> "" /\ trim c = c)
  /\ (Form.category (newTransaction s) = ""
      \/ In (Form.category (newTransaction s))
           (Categories.get (categories s) (Form.type (newTransaction s))))
  /\ (deleteModalVisible s = true -> categoryToDelete s <> None)
  /\ valid (currentDate s)
  /\ (forall t, In t (transactions s) -> Tx.category t <> "").

(** The events of a list one after the other, as long as each one runs. *)
Fixpoint run {num : Type} (events : list (@Event num)) (s : AppState num)
  : @Outcome num :=
  match events with
  | [] => Next s
  | e :: rest =>
      match step e s with
      | Next s' => run rest s'
      | o => o
      end
  end.

(** A session of March 15th, 2025: an expense is saved under "Food", the
    category "Pets" is added, then a long press on "Food" opens the conflict
    modal. *)
Definition sampleSession : list (@Event float) :=
  [ OpenAddModal (march2025 15);
    TypeAmount "12.50";
    PickCategory "Food";
    PressSave (hostAt (march2025 15) 1742040000001);
    OpenAddModal (march2025 15);
    StartAddingCategory;
    TypeCategoryName "  Pets ";
    PressAddCategory;
    LongPressCategory "Food" ].

(** The state at the end of [sampleSession]. *)
Definition sessionEnd : AppState float :=
  match run sampleSession (initialState (march2025 15)) with
  | Next s => s
  | _ => initialState (march2025 15)
  end.

(** The state after the first three events of [sampleSession]: the form is
    filled in and not yet saved. *)
Definition draftEnd : AppState float :=
  match run (firstn 3 sampleSession) (initialState (march2025 15)) with
  | Next s => s
  | _ => initialState (march2025 15)
  end.

(** A ledger whose categories are all in the seeded registry. *)
Definition registeredLedger : list (Tx.t float) :=
  [ txOf "1741000000005" TxType.Expense 12.5%float "Food";
    txOf "1741000000004" TxType.Income 1000%float "Salary";
    txOf "1741000000003" TxType.Expense 7.25%float "Food";
    txOf "1741000000002" TxType.Expense 40%float "Bills" ].

(** The conflict modal open on the category [name] of type [ty] over the
    ledger [txs], with [target] picked. *)
Definition conflictOn (txs : list (Tx.t float)) (name : string)
  (ty : TxType.t) (target : string) : AppState float :=
  setReassignCategory target
    (setCategoryToDelete (Some (mkCategoryToDelete name ty))
       (setDeleteModalVisible true (stateOf txs Form.blank (march2025 1)))).

(** ** Amounts as whole numbers of a unit *)

(** The values of [units] on the elements of [l], added up. *)
Definition sumUnits {A : Type} (units : A -> Z) (l : list A) : Z :=
  fold_right (fun x acc => units x + acc) 0 l.

(** [k] quarters as a binary64 number. *)
Definition ofQuarters (k : Z) : float :=
  let m := PrimFloat.of_uint63 (Uint63.of_Z (Z.abs k)) in
  PrimFloat.div (if k <? 0 then PrimFloat.opp m else m) 4%float.

(** The quarters in a binary64 number, a fraction of a quarter left out. *)
Definition quarters (x : float) : Z :=
  match Prim2SF (PrimFloat.mul x 4%float) with
  | S754_finite s m e =>
      (if s then -1 else 1)
      * (if 0 <=? e then Z.pos m * 2 ^ e else Z.pos m / 2 ^ (- e))
  | _ => 0
  end.

(** [amount] typed in for [category] with the type [ty] picked, then "Save
    Transaction" at the clock reading [ms] of March 15th, 2025. *)
Definition saveAs (ty : TxType.t) (amount category : string) (ms : Z)
  (s : AppState float) : AppState float :=
  snd (handleAddTransaction (hostAt (march2025 15) ms)
         (setNewTransaction (Form.mk ty amount category "") s)).

(** Four saves of amounts in quarters: three expenses and an income. *)
Definition ledgerOfQuarters : AppState float :=
  saveAs TxType.Expense "0.50" "Food" 1742040000004
    (saveAs TxType.Income "0.75" "Salary" 1742040000003
       (saveAs TxType.Expense "0.25" "Transport" 1742040000002
          (saveAs TxType.Expense "1.50" "Food" 1742040000001
             (stateOf [] Form.blank (march2025 1))))).

(** ** The totals of the groups of one type *)

(** The totals of the groups of type [ty], in the order of the list. *)
Definition totalsOfType {num : Type} (ty : TxType.t)
  (groups : list (Group.t num)) : list num :=
  map Group.total
    (filter (fun g => TxType.eqb (Group.type g) ty) groups).

(** Three saves: an income whose amount is a lone ".", and two expenses. *)
Definition ledgerWithDotIncome : AppState float :=
  saveAs TxType.Expense "10" "Bills" 1742040000003
    (saveAs TxType.Expense "7" "Food" 1742040000002
       (saveAs TxType.Income "." "Salary" 1742040000001
          (stateOf [] Form.blank (march2025 1)))).

(** * Properties *)

#[export] Instance Z_ExactAdd : ExactAdd Z.
Proof. split; simpl; intros; lia. Qed.

Lemma TxType_eqb_eq (a b : TxType.t) : TxType.eqb a b = true <-> a = b.
Proof. destruct a, b; simpl; split; congruence. Qed.

Lemma TxType_eqb_refl (a : TxType.t) : TxType.eqb a a = true.
Proof. now destruct a. Qed.

Lemma TxType_eqb_neq (a b : TxType.t) : TxType.eqb a b = false <-> a <> b.
Proof. destruct a, b; simpl; split; congruence. Qed.

Lemma Categories_get_set_same (c : Categories.t) (ty : TxType.t)
  (l : list string) : Categories.get (Categories.set c ty l) ty = l.
Proof. now destruct ty. Qed.

Lemma Categories_get_set_other (c : Categories.t) (ty ty' : TxType.t)
  (l : list string) :
  ty' <> ty -> Categories.get (Categories.set c ty l) ty' = Categories.get c ty'.
Proof. destruct ty, ty'; simpl; congruence. Qed.

Lemma includes_In (l : list string) (x : string) :
  includes l x = true <-> In x l.
Proof.
  unfold includes. rewrite existsb_exists. split.
  - intros [y [Hy Heq]]. apply String.eqb_eq in Heq. now subst.
  - intros Hin. exists x. split; [assumption | apply String.eqb_refl].
Qed.

Section DeletionFacts.

Context {num : Type} {numOps : Number num}.

Local Abbreviation State := (AppState num).
Local Abbreviation Transaction := (Tx.t num).

Lemma dependsOn_true (C : string) (T : TxType.t) (t : Transaction) :
  dependsOn C T t = true <-> Tx.category t = C /\ Tx.type t = T.
Proof.
  unfold dependsOn. rewrite andb_true_iff, String.eqb_eq, TxType_eqb_eq.
  reflexivity.
Qed.

Lemma dependsOn_other_type (C : string) (T : TxType.t) (t : Transaction) :
  Tx.type t <> T -> dependsOn C T t = false.
Proof.
  intros Hne. unfold dependsOn.
  apply TxType_eqb_neq in Hne. rewrite Hne. apply andb_false_r.
Qed.

(** A list splits into the elements a test selects and the others. *)
Lemma filter_split_Permutation {A : Type} (p : A -> bool) (l : list A) :
  Permutation l (filter p l ++ filter (fun x => negb (p x)) l).
Proof.
  induction l as [|x l IH]; simpl; [constructor|].
  destruct (p x); simpl.
  - now constructor.
  - now apply Permutation_cons_app.
Qed.

Lemma filter_none {A : Type} (p : A -> bool) (l : list A) :
  filter p l = [] -> filter (fun x => negb (p x)) l = l.
Proof.
  induction l as [|x l IH]; simpl; [reflexivity|].
  destruct (p x); simpl; [discriminate|].
  intros H. now rewrite IH.
Qed.

Lemma map_none {A : Type} (p : A -> bool) (f : A -> A) (l : list A) :
  filter p l = [] -> map (fun x => if p x then f x else x) l = l.
Proof.
  induction l as [|x l IH]; simpl; [reflexivity|].
  destruct (p x); simpl; [discriminate|].
  intros H. now rewrite IH.
Qed.

Lemma filter_filter_implied {A : Type} (p q : A -> bool) (l : list A) :
  (forall x, p x = true -> q x = true) ->
  filter p (filter q l) = filter p l.
Proof.
  intros Hpq. induction l as [|x l IH]; simpl; [reflexivity|].
  destruct (q x) eqn:Q; simpl.
  - now rewrite IH.
  - destruct (p x) eqn:P; [|assumption].
    apply Hpq in P. congruence.
Qed.

Lemma filter_map_fixed {A : Type} (p : A -> bool) (f : A -> A) (l : list A) :
  (forall x, p (f x) = p x) -> (forall x, p x = true -> f x = x) ->
  filter p (map f l) = filter p l.
Proof.
  intros Hp Hf. induction l as [|x l IH]; simpl; [reflexivity|].
  rewrite Hp. destruct (p x) eqn:P; [|assumption].
  now rewrite IH, Hf.
Qed.

Lemma filter_length_split {A : Type} (p : A -> bool) (l : list A) :
  (List.length (filter (fun x => negb (p x)) l) + List.length (filter p l)
   = List.length l)%nat.
Proof.
  induction l as [|x l IH]; simpl; [reflexivity|].
  destruct (p x); simpl; lia.
Qed.

Lemma not_In_filter_neq (C : string) (l : list string) :
  ~ In C (filter (fun c => negb (c =? C)%string) l).
Proof.
  rewrite filter_In. intros [_ H]. now rewrite String.eqb_refl in H.
Qed.

(** The state after a deletion that went through. *)
Lemma executeCategoryDeletion_delete (C : string) (T : TxType.t) (s : State) :
  let r := executeCategoryDeletion C T "delete" s in
  fst r = None
  /\ transactions (snd r)
     = filter (fun t => negb (dependsOn C T t)) (transactions s)
  /\ categories (snd r)
     = Categories.set (categories s) T
         (filter (fun c => negb (c =? C)%string)
            (Categories.get (categories s) T)).
Proof.
  unfold executeCategoryDeletion. simpl.
  destruct (Form.category (newTransaction s) =? C)%string; simpl; auto.
Qed.

Lemma executeCategoryDeletion_reassign (C : string) (T : TxType.t)
  (s : State) :
  reassignCategory s <> "" ->
  let r := executeCategoryDeletion C T "reassign" s in
  fst r = None
  /\ transactions (snd r)
     = map (fun t => if dependsOn C T t
                     then Tx.withCategory t (reassignCategory s) else t)
         (transactions s)
  /\ categories (snd r)
     = Categories.set (categories s) T
         (filter (fun c => negb (c =? C)%string)
            (Categories.get (categories s) T)).
Proof.
  intros Hne. unfold executeCategoryDeletion. simpl.
  apply String.eqb_neq in Hne. rewrite Hne.
  destruct (Form.category (newTransaction s) =? C)%string; simpl; auto.
Qed.

Lemma executeCategoryDeletion_refused (C : string) (T : TxType.t)
  (s : State) :
  reassignCategory s = "" ->
  executeCategoryDeletion C T "reassign" s
  = (Some (mkAlert "Error" "Please select a category to reassign to."), s).
Proof.
  intros He. unfold executeCategoryDeletion. simpl. now rewrite He.
Qed.

End DeletionFacts.

(** ** Deleting a category *)

Section Resolver.

Context {num : Type} {numOps : Number num}.

Local Abbreviation State := (AppState num).
Local Abbreviation Transaction := (Tx.t num).

(** C1.  Deleting the category [C] of type [T]: in "delete" mode the
    ledger loses exactly its dependents (the transactions of type [T] and
    category [C]) and keeps the others in order; in "reassign" mode with a
    target chosen the ledger keeps its length and, position by position,
    exactly the dependents get the target as category; in both modes [C]
    leaves the list of [T] in the registry; with no dependent the ledger
    is unchanged. *)
Theorem category_deletion_resolves (C : string) (T : TxType.t) (s : State) :
  let dependents := filter (dependsOn C T) (transactions s) in
  let registry' :=
    filter (fun c => negb (c =? C)%string) (Categories.get (categories s) T) in
  let target := reassignCategory s in
  let del := snd (executeCategoryDeletion C T "delete" s) in
  let rea := snd (executeCategoryDeletion C T "reassign" s) in
  (Permutation (transactions s) (dependents ++ transactions del)
   /\ (forall t, In t (transactions del) <->
                 In t (transactions s)
                 /\ ~ (Tx.category t = C /\ Tx.type t = T))
   /\ transactions del
      = filter (fun t => negb (dependsOn C T t)) (transactions s)
   /\ (List.length (transactions del) + List.length dependents
       = List.length (transactions s))%nat
   /\ Categories.get (categories del) T = registry'
   /\ ~ In C (Categories.get (categories del) T))
  /\ (target <> "" ->
      List.length (transactions rea) = List.length (transactions s)
      /\ (forall i t, nth_error (transactions s) i = Some t ->
            nth_error (transactions rea) i
            = Some (if dependsOn C T t
                    then Tx.mk (Tx.id t) (Tx.dateISO t) (Tx.displayDate t)
                           (Tx.type t) (Tx.amount t) target (Tx.note t)
                    else t))
      /\ Categories.get (categories rea) T = registry'
      /\ ~ In C (Categories.get (categories rea) T))
  /\ (dependents = [] ->
      transactions del = transactions s
      /\ transactions rea = transactions s).
Proof.
  intros dependents registry' target del rea.
  destruct (executeCategoryDeletion_delete C T s) as (_ & Hdt & Hdc).
  fold del in Hdt, Hdc.
  split; [|split].
  - rewrite Hdt, Hdc, Categories_get_set_same.
    split; [apply filter_split_Permutation|].
    split; [|split; [reflexivity|]].
    + intros t. rewrite filter_In, negb_true_iff.
      rewrite <- (dependsOn_true C T t).
      destruct (dependsOn C T t); intuition congruence.
    + split; [apply filter_length_split|].
      split; [reflexivity | apply not_In_filter_neq].
  - intros Hne.
    destruct (executeCategoryDeletion_reassign C T s Hne) as (_ & Hrt & Hrc).
    fold rea in Hrt, Hrc. fold target in Hrt.
    rewrite Hrt, Hrc, Categories_get_set_same.
    split; [apply length_map|].
    split; [|split; [reflexivity | apply not_In_filter_neq]].
    intros i t Hi. rewrite nth_error_map, Hi. reflexivity.
  - intros Hnone. split.
    + rewrite Hdt. now apply filter_none.
    + destruct (String.eqb_spec target "") as [He|Hne].
      * subst rea. now rewrite (executeCategoryDeletion_refused C T s He).
      * destruct (executeCategoryDeletion_reassign C T s Hne)
          as (_ & Hrt & _).
        fold rea in Hrt. rewrite Hrt.
        now apply (map_none (dependsOn C T)).
Qed.

(** C9.  In "reassign" mode with no target chosen the deletion is
    refused with an alert and the state is the one it started from:
    neither the ledger nor the registry changes. *)
Theorem reassign_without_target_changes_nothing (C : string) (T : TxType.t)
  (s : State) :
  reassignCategory s = "" ->
  executeCategoryDeletion C T "reassign" s
  = (Some (mkAlert "Error" "Please select a category to reassign to."), s).
Proof. apply executeCategoryDeletion_refused. Qed.

(** C10.  Deleting the category [C] of type [T], in "delete" or in
    "reassign" mode, touches no transaction of the other type, whatever its
    category: the transactions of a type other than [T] are the same
    records in the same order, and in "reassign" mode each stays at its
    position; the registry list of the other type is unchanged. *)
Theorem category_deletion_is_type_isolated (C : string) (T : TxType.t)
  (action : string) (s : State) :
  let s' := snd (executeCategoryDeletion C T action s) in
  let otherType (t : Transaction) := negb (TxType.eqb (Tx.type t) T) in
  (action = "delete" \/ action = "reassign" ->
   filter otherType (transactions s') = filter otherType (transactions s)
   /\ (forall T', T' <> T ->
         Categories.get (categories s') T' = Categories.get (categories s) T'))
  /\ (action = "reassign" ->
      forall i t, nth_error (transactions s) i = Some t -> Tx.type t <> T ->
                  nth_error (transactions s') i = Some t).
Proof.
  intros s' otherType.
  assert (Hdel : filter otherType
                   (filter (fun t => negb (dependsOn C T t)) (transactions s))
                 = filter otherType (transactions s)).
  { apply filter_filter_implied. intros t Ht. subst otherType. simpl in Ht.
    apply negb_true_iff, TxType_eqb_neq in Ht.
    now rewrite dependsOn_other_type. }
  assert (Hmap : forall target,
             filter otherType
               (map (fun t => if dependsOn C T t
                              then Tx.withCategory t target else t)
                  (transactions s))
             = filter otherType (transactions s)).
  { intros target. apply filter_map_fixed; subst otherType; simpl.
    - intros t. now destruct (dependsOn C T t).
    - intros t Ht. apply negb_true_iff, TxType_eqb_neq in Ht.
      now rewrite dependsOn_other_type. }
  split.
  - intros [-> | ->].
    + destruct (executeCategoryDeletion_delete C T s) as (_ & Ht & Hc).
      fold s' in Ht, Hc. rewrite Ht, Hc. split; [exact Hdel|].
      intros T' HT'. now apply Categories_get_set_other.
    + destruct (String.eqb_spec (reassignCategory s) "") as [He|Hne].
      * subst s'.
        rewrite (executeCategoryDeletion_refused C T s He).
        simpl. auto.
      * destruct (executeCategoryDeletion_reassign C T s Hne)
          as (_ & Ht & Hc).
        fold s' in Ht, Hc. rewrite Ht, Hc. split; [apply Hmap|].
        intros T' HT'. now apply Categories_get_set_other.
  - intros -> i t Hi Hty.
    destruct (String.eqb_spec (reassignCategory s) "") as [He|Hne].
    + subst s'.
      rewrite (executeCategoryDeletion_refused C T s He).
      exact Hi.
    + destruct (executeCategoryDeletion_reassign C T s Hne) as (_ & Ht & _).
      fold s' in Ht. rewrite Ht, nth_error_map, Hi. simpl.
      now rewrite dependsOn_other_type.
Qed.

(** With no dependent the initiation asks for a confirmation, whose
    "Delete" button runs the deletion in "delete" mode. *)
Lemma initiation_without_dependents (C : string) (s : State) :
  filter (dependsOn C (Form.type (newTransaction s))) (transactions s) = [] ->
  handleDeleteCategoryInitiation C s
  = ConfirmPrompt
      (executeCategoryDeletion C (Form.type (newTransaction s)) "delete").
Proof.
  intros Hnone. unfold handleDeleteCategoryInitiation.
  destruct (existsb _ (transactions s)) eqn:E; [|reflexivity].
  apply existsb_exists in E. destruct E as (t & Hin & Hd).
  assert (Hf : In t (filter (dependsOn C (Form.type (newTransaction s)))
                       (transactions s))).
  { apply filter_In. split; [assumption | exact Hd]. }
  rewrite Hnone in Hf. destruct Hf.
Qed.

End Resolver.

Example delete_mode_on_sample :
  map Tx.id
    (transactions
       (snd (executeCategoryDeletion "Food" TxType.Expense "delete"
               (deletionState ""))))
  = ["1741000000004"; "1741000000002"; "1741000000001"].
Proof. reflexivity. Qed.

Example reassign_mode_on_sample :
  let s' := snd (executeCategoryDeletion "Food" TxType.Expense "reassign"
                   (deletionState "Bills")) in
  map Tx.category (transactions s') = ["Bills"; "Salary"; "Bills"; "Bills"; "Food"]
  /\ Categories.Expense (categories s') = ["Transport"; "Shopping"; "Bills"]
  /\ Categories.Income (categories s') = ["Salary"; "Gift"; "Freelance"].
Proof. repeat split; reflexivity. Qed.

Lemma category_deletion_resolves_witness :
  reassignCategory (deletionState "Bills") <> ""
  /\ List.length
       (transactions
          (snd (executeCategoryDeletion "Food" TxType.Expense "reassign"
                  (deletionState "Bills"))))
     = List.length (transactions (deletionState "Bills")).
Proof.
  assert (H : reassignCategory (deletionState "Bills") <> "") by discriminate.
  split; [exact H|].
  exact (proj1 (proj1 (proj2 (category_deletion_resolves
                                "Food" TxType.Expense (deletionState "Bills")))
                 H)).
Defined.

Lemma reassign_without_target_changes_nothing_witness :
  reassignCategory (deletionState "") = ""
  /\ snd (executeCategoryDeletion "Food" TxType.Expense "reassign"
            (deletionState ""))
     = deletionState "".
Proof.
  split; [reflexivity|].
  rewrite (reassign_without_target_changes_nothing
             "Food" TxType.Expense (deletionState "") eq_refl).
  reflexivity.
Defined.

Lemma category_deletion_is_type_isolated_witness :
  filter (fun t => negb (TxType.eqb (Tx.type t) TxType.Expense))
    (transactions
       (snd (executeCategoryDeletion "Food" TxType.Expense "delete"
               (deletionState "Bills"))))
  = filter (fun t => negb (TxType.eqb (Tx.type t) TxType.Expense))
      (transactions (deletionState "Bills")).
Proof.
  exact (proj1 (proj1 (category_deletion_is_type_isolated
                         "Food" TxType.Expense "delete" (deletionState "Bills"))
                 (or_introl eq_refl))).
Defined.

(** ** The calendar *)

Lemma daysInMonth_bounds (y m : Z) : 28 <= daysInMonth y m <= 31.
Proof.
  unfold daysInMonth.
  destruct (m =? 1); [destruct (isLeap y); lia|].
  destruct ((m =? 3) || (m =? 5) || (m =? 8) || (m =? 10))%bool; lia.
Qed.

Lemma nextMonth_valid (y m : Z) :
  validMonth m -> validMonth (snd (nextMonth y m)).
Proof.
  unfold validMonth, nextMonth. intros H.
  destruct (Z.eqb_spec m 11); simpl; lia.
Qed.

Lemma prevMonth_valid (y m : Z) :
  validMonth m -> validMonth (snd (prevMonth y m)).
Proof.
  unfold validMonth, prevMonth. intros H.
  destruct (Z.eqb_spec m 0); simpl; lia.
Qed.

Lemma prevMonth_nextMonth (y m : Z) :
  validMonth m -> prevMonth (fst (nextMonth y m)) (snd (nextMonth y m)) = (y, m).
Proof.
  unfold validMonth, nextMonth, prevMonth. intros H.
  destruct (Z.eqb_spec m 11); simpl.
  - subst. f_equal. lia.
  - destruct (Z.eqb_spec (m + 1) 0); [lia|]. f_equal. lia.
Qed.

Lemma nextMonth_other (y m : Z) : snd (nextMonth y m) <> m.
Proof.
  unfold nextMonth. destruct (Z.eqb_spec m 11); simpl; lia.
Qed.

(** A day of the month within the month is left where it is. *)
Lemma carryDay_within (fuel : nat) (y m d : Z) :
  1 <= d <= daysInMonth y m -> carryDay fuel y m d = (y, m, d).
Proof.
  intros H. destruct fuel; simpl; [reflexivity|].
  destruct (Z.ltb_spec d 1); [lia|].
  destruct (Z.ltb_spec (daysInMonth y m) d); [lia|]. reflexivity.
Qed.

(** The fuel of [setDate] is enough: the day carried lands in a month. *)
Lemma carryDay_valid (fuel : nat) : forall y m d,
  validMonth m ->
  1 - 28 * Z.of_nat fuel <= d <= 28 * Z.of_nat fuel + 28 ->
  let '(y', m', d') := carryDay fuel y m d in
  validMonth m' /\ 1 <= d' <= daysInMonth y' m'.
Proof.
  induction fuel as [|k IH]; intros y m d Hm Hd.
  - simpl. pose proof (daysInMonth_bounds y m). split; [assumption | lia].
  - cbn [carryDay].
    destruct (Z.ltb_spec d 1) as [Hlt|Hge].
    + destruct (prevMonth y m) as [y' m'] eqn:Ep.
      assert (Hm' : validMonth m').
      { pose proof (prevMonth_valid y m Hm) as Hv. now rewrite Ep in Hv. }
      pose proof (daysInMonth_bounds y' m').
      destruct (Z.le_gt_cases 1 (d + daysInMonth y' m')).
      * rewrite carryDay_within by lia. split; [assumption | lia].
      * apply IH; [assumption | lia].
    + destruct (Z.ltb_spec (daysInMonth y m) d) as [Hov|Hin].
      * destruct (nextMonth y m) as [y' m'] eqn:En.
        assert (Hm' : validMonth m').
        { pose proof (nextMonth_valid y m Hm) as Hv. now rewrite En in Hv. }
        pose proof (daysInMonth_bounds y m).
        apply IH; [assumption | lia].
      * split; [assumption | lia].
Qed.

Lemma setDate_valid (d : Date) (n : Z) :
  validMonth (month d) -> valid (setDate d n).
Proof.
  intros Hm. unfold setDate, valid.
  pose proof (carryDay_valid (S (Z.to_nat (Z.abs n))) (year d) (month d) n Hm)
    as H.
  destruct (carryDay (S (Z.to_nat (Z.abs n))) (year d) (month d) n)
    as [[y' m'] d'].
  simpl. apply H. lia.
Qed.

Lemma setDate_within (d : Date) (n : Z) :
  1 <= n <= daysInMonth (year d) (month d) ->
  setDate d n = mkDate (year d) (month d) n (msOfDay d).
Proof.
  intros H. unfold setDate. now rewrite carryDay_within.
Qed.

Lemma setDate_overflow (d : Date) (n : Z) :
  daysInMonth (year d) (month d) < n <= 31 ->
  setDate d n
  = mkDate (fst (nextMonth (year d) (month d)))
      (snd (nextMonth (year d) (month d)))
      (n - daysInMonth (year d) (month d)) (msOfDay d).
Proof.
  intros H. unfold setDate. cbn [carryDay].
  pose proof (daysInMonth_bounds (year d) (month d)).
  destruct (Z.ltb_spec n 1); [lia|].
  destruct (Z.ltb_spec (daysInMonth (year d) (month d)) n); [|lia].
  destruct (nextMonth (year d) (month d)) as [y' m'].
  pose proof (daysInMonth_bounds y' m').
  rewrite carryDay_within by lia. reflexivity.
Qed.

(** Day 0 is the last day of the month before. *)
Lemma setDate_zero (d : Date) :
  setDate d 0
  = mkDate (fst (prevMonth (year d) (month d)))
      (snd (prevMonth (year d) (month d)))
      (daysInMonth (fst (prevMonth (year d) (month d)))
         (snd (prevMonth (year d) (month d))))
      (msOfDay d).
Proof.
  unfold setDate. simpl.
  destruct (prevMonth (year d) (month d)) as [y' m']. reflexivity.
Qed.

(** ** Adding a transaction *)

Lemma toString_inj (a b : Z) : toString a = toString b -> a = b.
Proof.
  unfold toString. intros H. apply DecimalZ.to_int_inj.
  assert (Hnn : forall z, Z.to_int z <> Decimal.Pos Decimal.Nil
                          /\ Z.to_int z <> Decimal.Neg Decimal.Nil).
  { intros [|p|p]; simpl; split; try discriminate;
      intros E; injection E; apply DecimalPos.Unsigned.to_uint_nonnil. }
  apply (f_equal NilZero.int_of_string) in H.
  rewrite !NilZero.isi in H by apply Hnn.
  now injection H.
Qed.

Section Adding.

Context {num : Type} {numOps : Number num}.

Local Abbreviation State := (AppState num).
Local Abbreviation Transaction := (Tx.t num).

(** The guard of [handleAddTransaction] refuses exactly the empty amount
    text and the empty category. *)
Lemma handleAddTransaction_refused (host : Host num) (s : State) :
  Form.amount (newTransaction s) = "" \/ Form.category (newTransaction s) = "" ->
  handleAddTransaction host s
  = (Some (mkAlert "Missing Info"
             "Please enter an amount and select a category."), s).
Proof.
  intros H. unfold handleAddTransaction.
  destruct H as [H|H]; rewrite H; simpl; [reflexivity|].
  now rewrite orb_true_r.
Qed.

(** Past the guard, one record is built and put in front of the ledger. *)
Lemma handleAddTransaction_accepted (host : Host num) (s : State) :
  Form.amount (newTransaction s) <> "" ->
  Form.category (newTransaction s) <> "" ->
  exists d : Date,
    d = (let td := setDate (newDate (currentDate s)) (getDate (now host)) in
         if negb (getMonth td =? getMonth (currentDate s))
         then setDate td 0 else td)
    /\ fst (handleAddTransaction host s) = None
    /\ transactions (snd (handleAddTransaction host s))
       = Tx.mk (toString (dateNow host)) (toISOString d)
           (toLocaleDateString host d)
           (Form.type (newTransaction s))
           (parseFloat host (Form.amount (newTransaction s)))
           (Form.category (newTransaction s))
           (Form.note (newTransaction s))
         :: transactions s
    /\ categories (snd (handleAddTransaction host s)) = categories s.
Proof.
  intros Ha Hc. unfold handleAddTransaction.
  apply String.eqb_neq in Ha, Hc. rewrite Ha, Hc. simpl.
  eexists. split; [reflexivity|]. auto.
Qed.

(** The rollover rule: the day of today put in the viewed month, or the
    last day of that month when the month is shorter. *)
Lemma rollover_clamps (viewed : Date) (n : Z) :
  validMonth (month viewed) -> 1 <= n <= 31 ->
  (let td := setDate (newDate viewed) n in
   if negb (getMonth td =? getMonth viewed) then setDate td 0 else td)
  = mkDate (year viewed) (month viewed)
      (Z.min n (daysInMonth (year viewed) (month viewed)))
      (msOfDay viewed).
Proof.
  intros Hm Hn. unfold newDate. cbv zeta.
  destruct (Z.le_gt_cases n (daysInMonth (year viewed) (month viewed)))
    as [Hin|Hov].
  - rewrite setDate_within by lia. unfold getMonth. simpl.
    rewrite Z.eqb_refl. simpl. now rewrite Z.min_l.
  - rewrite setDate_overflow by lia. unfold getMonth. simpl.
    destruct (Z.eqb_spec (snd (nextMonth (year viewed) (month viewed)))
                (month viewed)) as [E|_].
    + now apply nextMonth_other in E.
    + simpl. rewrite setDate_zero. simpl.
      rewrite prevMonth_nextMonth by assumption. simpl.
      now rewrite Z.min_r by lia.
Qed.

End Adding.

(** C2 (as amended).  [handleAddTransaction] fails, with an alert and the
    state left as it was, when the amount text is empty or the category is
    empty, and only then: any other amount text is accepted, and a record
    whose amount is [parseFloat] of the text (a [NaN] when the text does not
    parse) is put in the ledger. *)
Theorem add_fails_only_on_empty_amount_or_category {num : Type}
  (host : Host num) (s : AppState num) :
  let form := newTransaction s in
  (Form.amount form = "" \/ Form.category form = "" ->
   handleAddTransaction host s
   = (Some (mkAlert "Missing Info"
              "Please enter an amount and select a category."), s))
  /\ (Form.amount form <> "" -> Form.category form <> "" ->
      fst (handleAddTransaction host s) = None
      /\ exists tx,
           transactions (snd (handleAddTransaction host s))
           = tx :: transactions s
           /\ Tx.amount tx = parseFloat host (Form.amount form)).
Proof.
  intros form. split.
  - apply handleAddTransaction_refused.
  - intros Ha Hc.
    destruct (handleAddTransaction_accepted host s Ha Hc)
      as (d & _ & Hnone & Htx & _).
    split; [assumption|]. eexists. split; [exact Htx | reflexivity].
Qed.

Lemma add_fails_only_on_empty_amount_or_category_witness :
  let s := addState sampleLedger "" "Food" (march2025 1) in
  let host := hostAt (march2025 15) 1741000000999 in
  Form.amount (newTransaction s) = ""
  /\ snd (handleAddTransaction host s) = s.
Proof.
  split; [reflexivity|].
  rewrite (proj1 (add_fails_only_on_empty_amount_or_category
                    (hostAt (march2025 15) 1741000000999)
                    (addState sampleLedger "" "Food" (march2025 1)))
             (or_introl eq_refl)).
  reflexivity.
Defined.

(** C2 as stated fails: the amount text "abc" does not parse as a number,
    the category is chosen, and the add goes through: no alert, and the
    empty ledger gets a record whose amount is [NaN]. *)
Lemma unparseable_amount_is_accepted :
  let s := addState [] "abc" "Food" (march2025 1) in
  let r := handleAddTransaction (hostAt (march2025 15) 1741000000000) s in
  PrimFloat.is_nan (JSFloat.parseFloat "abc") = true
  /\ transactions s = []
  /\ fst r = None
  /\ map Tx.id (transactions (snd r)) = ["1741000000000"]
  /\ map Tx.amount (transactions (snd r)) = [nan].
Proof. vm_compute. repeat split; reflexivity. Qed.

(** C3.  The date given to a new transaction has the year and the month of
    the reference month and the day of the month of today, or the last day
    of the reference month when that month has fewer days: it is a date of
    the reference month. *)
Theorem assigned_date_is_clamped_to_reference_month {num : Type}
  (host : Host num) (s : AppState num) :
  Form.amount (newTransaction s) <> "" ->
  Form.category (newTransaction s) <> "" ->
  validMonth (getMonth (currentDate s)) ->
  1 <= getDate (now host) <= 31 ->
  exists tx,
    transactions (snd (handleAddTransaction host s)) = tx :: transactions s
    /\ getFullYear (newDate (Tx.dateISO tx)) = getFullYear (currentDate s)
    /\ getMonth (newDate (Tx.dateISO tx)) = getMonth (currentDate s)
    /\ getDate (newDate (Tx.dateISO tx))
       = Z.min (getDate (now host))
           (daysInMonth (getFullYear (currentDate s))
              (getMonth (currentDate s)))
    /\ valid (Tx.dateISO tx).
Proof.
  intros Ha Hc Hm Hn.
  destruct (handleAddTransaction_accepted host s Ha Hc)
    as (d & Hd & _ & Htx & _).
  rewrite (rollover_clamps (currentDate s) (getDate (now host)) Hm Hn) in Hd.
  eexists. split; [exact Htx|]. subst d. unfold newDate, toISOString, valid.
  simpl.
  pose proof (daysInMonth_bounds (year (currentDate s)) (month (currentDate s))).
  unfold getFullYear, getMonth. repeat split; try assumption; try apply Hm.
  - lia.
  - apply Z.le_min_r.
Qed.

Lemma assigned_date_is_clamped_to_reference_month_witness :
  let s := addState sampleLedger "12.50" "Food" (mkDate 2025 1 1 0) in
  let host := hostAt (mkDate 2025 2 31 43200000) 1741000000999 in
  exists tx,
    transactions (snd (handleAddTransaction host s)) = tx :: transactions s
    /\ getFullYear (newDate (Tx.dateISO tx)) = 2025
    /\ getMonth (newDate (Tx.dateISO tx)) = 1
    /\ getDate (newDate (Tx.dateISO tx)) = 28
    /\ valid (Tx.dateISO tx).
Proof.
  apply (assigned_date_is_clamped_to_reference_month
           (hostAt (mkDate 2025 2 31 43200000) 1741000000999)
           (addState sampleLedger "12.50" "Food" (mkDate 2025 1 1 0)));
    simpl; unfold validMonth; simpl; try discriminate; lia.
Defined.

Example february_of_a_leap_year :
  map (fun t => enUS (Tx.dateISO t))
    (transactions
       (snd (handleAddTransaction
               (hostAt (mkDate 2024 0 31 43200000) 1706700000000)
               (addState [] "12.50" "Food" (mkDate 2024 1 10 0)))))
  = ["2/29/2024"].
Proof. reflexivity. Qed.

Example day_within_the_month :
  map (fun t => (enUS (Tx.dateISO t), Tx.amount t))
    (transactions
       (snd (handleAddTransaction
               (hostAt (mkDate 2025 5 17 43200000) 1750000000000)
               (addState [] "12.50" "Food" (mkDate 2025 1 1 0)))))
  = [("2/17/2025", 12.5%float)].
Proof. reflexivity. Qed.

(** C4 (as amended).  A valid add puts the new record in front of the prior
    ledger, which grows by one; the id of the record is the clock reading
    [Date.now()] printed in decimal, and it differs from every prior id
    provided each prior id was printed from another clock reading: the ids
    then stay pairwise distinct. *)
Theorem add_prepends_one_record {num : Type} (host : Host num)
  (s : AppState num) :
  Form.amount (newTransaction s) <> "" ->
  Form.category (newTransaction s) <> "" ->
  let ledger' := transactions (snd (handleAddTransaction host s)) in
  exists tx,
    ledger' = tx :: transactions s
    /\ List.length ledger' = S (List.length (transactions s))
    /\ Tx.id tx = toString (dateNow host)
    /\ ((forall t, In t (transactions s) ->
                   exists ms, Tx.id t = toString ms /\ ms <> dateNow host) ->
        ~ In (Tx.id tx) (map Tx.id (transactions s))
        /\ (NoDup (map Tx.id (transactions s)) -> NoDup (map Tx.id ledger'))).
Proof.
  intros Ha Hc ledger'.
  destruct (handleAddTransaction_accepted host s Ha Hc)
    as (d & _ & _ & Htx & _).
  fold ledger' in Htx. eexists. split; [exact Htx|].
  split; [now rewrite Htx|]. split; [reflexivity|].
  intros Hclock. simpl.
  assert (Hfresh : ~ In (toString (dateNow host)) (map Tx.id (transactions s))).
  { intros Hin. apply in_map_iff in Hin. destruct Hin as (t & Hid & Hin).
    destruct (Hclock t Hin) as (ms & Hms & Hne).
    apply Hne, toString_inj. congruence. }
  split; [exact Hfresh|].
  intros Hnd. rewrite Htx. simpl. now constructor.
Qed.

Lemma add_prepends_one_record_witness :
  let s := addState sampleLedger "12.50" "Food" (march2025 1) in
  let host := hostAt (march2025 15) 1741000000999 in
  exists tx,
    transactions (snd (handleAddTransaction host s)) = tx :: transactions s
    /\ List.length (transactions (snd (handleAddTransaction host s)))
       = S (List.length (transactions s))
    /\ Tx.id tx = toString (dateNow host)
    /\ ((forall t, In t (transactions s) ->
                   exists ms, Tx.id t = toString ms /\ ms <> dateNow host) ->
        ~ In (Tx.id tx) (map Tx.id (transactions s))
        /\ (NoDup (map Tx.id (transactions s)) ->
            NoDup (map Tx.id (transactions (snd (handleAddTransaction host s)))))).
Proof.
  apply (add_prepends_one_record
           (hostAt (march2025 15) 1741000000999)
           (addState sampleLedger "12.50" "Food" (march2025 1)));
    discriminate.
Defined.

(** C4 as stated fails: the clock reads 1741000000000 again, the reading
    the one prior record was created at, and the new record gets the id of
    that record. *)
Lemma repeated_clock_reading_repeats_the_id :
  let s := addState [txOf "1741000000000" TxType.Expense 40%float "Bills"]
             "12.50" "Food" (march2025 1) in
  let r := handleAddTransaction (hostAt (march2025 15) 1741000000000) s in
  fst r = None
  /\ map Tx.id (transactions s) = ["1741000000000"]
  /\ map Tx.id (transactions (snd r)) = ["1741000000000"; "1741000000000"].
Proof. vm_compute. repeat split; reflexivity. Qed.

(** ** The month filter *)

(** C5.  The filtered set is a part of the ledger, in ledger order; a
    transaction of the ledger is in it exactly when the month and the year
    re-derived from its [dateISO] are those of the reference month, so no
    transaction of another month or year is in it. *)
Theorem filter_selects_the_reference_month {num : Type} (s : AppState num) :
  let filtered := getFilteredTransactions s in
  incl filtered (transactions s)
  /\ (List.length filtered <= List.length (transactions s))%nat
  /\ (forall t : Tx.t num,
        In t filtered <->
        In t (transactions s)
        /\ getMonth (newDate (Tx.dateISO t)) = getMonth (newDate (currentDate s))
        /\ getFullYear (newDate (Tx.dateISO t))
           = getFullYear (newDate (currentDate s)))
  /\ (forall t : Tx.t num,
        In t (transactions s) ->
        getMonth (newDate (Tx.dateISO t)) <> getMonth (newDate (currentDate s))
        \/ getFullYear (newDate (Tx.dateISO t))
           <> getFullYear (newDate (currentDate s)) ->
        ~ In t filtered).
Proof.
  intros filtered. subst filtered. unfold getFilteredTransactions.
  assert (Hiff : forall t : Tx.t num,
             isSameMonth (Tx.dateISO t) (currentDate s) = true <->
             getMonth (newDate (Tx.dateISO t)) = getMonth (newDate (currentDate s))
             /\ getFullYear (newDate (Tx.dateISO t))
                = getFullYear (newDate (currentDate s))).
  { intros t. unfold isSameMonth.
    now rewrite andb_true_iff, !Z.eqb_eq. }
  split; [apply incl_filter|].
  split; [apply filter_length_le|].
  split.
  - intros t. rewrite filter_In, Hiff. reflexivity.
  - intros t _ Hne Hin. apply filter_In in Hin. destruct Hin as [_ Hin].
    apply Hiff in Hin. destruct Hin, Hne; contradiction.
Qed.

Example filter_on_sample :
  let s := stateOf
             (txOf "1741000000009" TxType.Expense 3%float "Food"
              :: Tx.mk "1738000000000" (mkDate 2025 1 27 0) "2/27/2025"
                   TxType.Expense 9%float "Food" ""
              :: Tx.mk "1710000000000" (mkDate 2024 2 9 0) "3/9/2024"
                   TxType.Income 5%float "Gift" ""
              :: sampleLedger)
             Form.blank (march2025 1) in
  map Tx.id (getFilteredTransactions s)
  = "1741000000009" :: map Tx.id sampleLedger.
Proof. reflexivity. Qed.

(** ** Adding a category *)

Lemma trimStart_spec (s : string) :
  exists l, s = (l ++ trimStart s)%string
            /\ allWhiteSpace l = true
            /\ forall c, firstChar (trimStart s) = Some c -> isWhiteSpace c = false.
Proof.
  induction s as [|c r IH]; simpl.
  - exists "". repeat split. discriminate.
  - destruct (isWhiteSpace c) eqn:W.
    + destruct IH as (l & Hl & Hw & Hf). exists (String c l). simpl.
      rewrite W, Hw. repeat split; [now f_equal | assumption].
    + exists "". simpl. repeat split. intros c' E. now injection E as <-.
Qed.

Lemma trimEnd_spec (s : string) :
  exists r, s = (trimEnd s ++ r)%string
            /\ allWhiteSpace r = true
            /\ (forall c, lastChar (trimEnd s) = Some c -> isWhiteSpace c = false)
            /\ (forall c, firstChar s = Some c -> isWhiteSpace c = false ->
                          firstChar (trimEnd s) = Some c).
Proof.
  induction s as [|c r0 IH]; simpl.
  - exists "". repeat split; discriminate.
  - destruct IH as (r & Hr & Hw & Hl & _).
    destruct (isWhiteSpace c) eqn:W; simpl.
    + destruct (String.eqb_spec (trimEnd r0) "") as [E|NE].
      * exists (String c r0). rewrite E in Hr. simpl in Hr.
        simpl. rewrite W. rewrite <- Hr in Hw. rewrite Hw.
        repeat split; try discriminate.
        intros c' Hc' Hn. injection Hc' as <-. congruence.
      * exists r. simpl. repeat split; [now f_equal | assumption | |].
        -- destruct (trimEnd r0); [contradiction | exact Hl].
        -- intros c' Hc' Hn. injection Hc' as <-. congruence.
    + exists r. simpl. repeat split; [now f_equal | assumption | | auto].
      destruct (trimEnd r0) eqn:E; [|exact Hl].
      intros c' Hc'. now injection Hc' as <-.
Qed.

(** [trim] drops white space at both ends, and nothing else. *)
Lemma trim_spec (s : string) :
  exists l r, s = (l ++ trim s ++ r)%string
              /\ allWhiteSpace l = true /\ allWhiteSpace r = true
              /\ (forall c, firstChar (trim s) = Some c -> isWhiteSpace c = false)
              /\ (forall c, lastChar (trim s) = Some c -> isWhiteSpace c = false).
Proof.
  unfold trim.
  destruct (trimStart_spec s) as (l & Hl & Hwl & Hf).
  destruct (trimEnd_spec (trimStart s)) as (r & Hr & Hwr & Hlast & Hfirst).
  exists l, r. split; [now rewrite <- Hr|].
  repeat split; try assumption.
  intros c Hc. destruct (trimStart s) as [|c0 r0] eqn:E; [discriminate|].
  specialize (Hf c0 eq_refl). specialize (Hfirst c0 eq_refl Hf).
  congruence.
Qed.

Example trim_on_sample :
  trim (String (ascii_of_nat 9) "  Pet food  ") = "Pet food"
  /\ trim "   " = "" /\ trim "Rent" = "Rent".
Proof. repeat split; reflexivity. Qed.

(** C8.  Adding a category works on the trimmed name (the name typed,
    without the white space at its ends).  When the trimmed name is empty, or
    is a member of the list of the type of the form, the state (so the
    registry) is left as it was; otherwise the trimmed name is appended at
    the end of that list and the list of the other type is unchanged. *)
Theorem category_is_added_once {num : Type} (s : AppState num) :
  let name := trim (newCategoryName s) in
  let type := Form.type (newTransaction s) in
  let s' := snd (handleAddNewCategory s) in
  (exists l r, newCategoryName s = (l ++ name ++ r)%string
               /\ allWhiteSpace l = true /\ allWhiteSpace r = true
               /\ (forall c, firstChar name = Some c -> isWhiteSpace c = false)
               /\ (forall c, lastChar name = Some c -> isWhiteSpace c = false))
  /\ (name = "" \/ In name (Categories.get (categories s) type) -> s' = s)
  /\ (name <> "" -> ~ In name (Categories.get (categories s) type) ->
      Categories.get (categories s') type
      = (Categories.get (categories s) type ++ [name])%list
      /\ (forall T', T' <> type ->
            Categories.get (categories s') T' = Categories.get (categories s) T')
      /\ transactions s' = transactions s).
Proof.
  intros name type s'. split; [apply trim_spec|].
  subst s'. unfold handleAddNewCategory. fold name. fold type. split.
  - intros [He | Hin].
    + now rewrite He.
    + destruct (name =? "")%string; [reflexivity|].
      apply includes_In in Hin. now rewrite Hin.
  - intros Hne Hnin.
    apply String.eqb_neq in Hne. rewrite Hne.
    destruct (includes (Categories.get (categories s) type) name) eqn:I.
    + apply includes_In in I. contradiction.
    + simpl. split; [apply Categories_get_set_same|].
      split; [|reflexivity].
      intros T' HT'. now apply Categories_get_set_other.
Qed.

Lemma category_is_added_once_witness :
  let s := setNewCategoryName "  Pet food " (addState sampleLedger "" "" (march2025 1)) in
  Categories.get (categories (snd (handleAddNewCategory s))) TxType.Expense
  = ["Food"; "Transport"; "Shopping"; "Bills"; "Pet food"]
  /\ Categories.get (categories (snd (handleAddNewCategory s))) TxType.Income
     = ["Salary"; "Gift"; "Freelance"].
Proof.
  pose proof (proj2 (proj2 (category_is_added_once
                              (setNewCategoryName "  Pet food "
                                 (addState sampleLedger "" "" (march2025 1)))))) as H.
  cbv zeta in H.
  assert (Hne : trim "  Pet food " <> "") by discriminate.
  assert (Hnin : ~ In (trim "  Pet food ")
                     ["Food"; "Transport"; "Shopping"; "Bills"]).
  { simpl. intros [E|[E|[E|[E|[]]]]]; discriminate. }
  destruct (H Hne Hnin) as (Hty & Hother & _).
  split; [exact Hty | apply Hother; discriminate].
Defined.

Example duplicate_category_is_refused :
  let s := setNewCategoryName " Food" (addState sampleLedger "" "" (march2025 1)) in
  handleAddNewCategory s = (Some (mkAlert "Error" "Category already exists."), s).
Proof. reflexivity. Qed.

(** ** The grouped view: permutation and membership *)

Section SortFacts.

Context {num : Type} {numOps : Number num}.

Lemma sortInsert_Permutation {A : Type} (comparefn : A -> A -> num) (x : A)
  (l : list A) : Permutation (sortInsert comparefn x l) (x :: l).
Proof.
  induction l as [|y l IH]; simpl; [reflexivity|].
  destruct (num_ltb num_zero (comparefn x y)); [|reflexivity].
  rewrite IH. apply perm_swap.
Qed.

(** Whatever the comparator answers, [sort] only reorders. *)
Lemma sort_Permutation {A : Type} (comparefn : A -> A -> num) (l : list A) :
  Permutation (sort comparefn l) l.
Proof.
  induction l as [|x l IH]; simpl; [reflexivity|].
  rewrite sortInsert_Permutation. now constructor.
Qed.

(** With a comparator that is consistent on the elements of [l], the moves
    of [sort] leave every element in front of those it need not follow. *)
Lemma sortInsert_sorted {A : Type} (comparefn : A -> A -> num) (x : A)
  (l : list A) :
  let follows a b := num_ltb num_zero (comparefn a b) in
  (forall a b, In a (x :: l) -> In b (x :: l) ->
               follows a b = true -> follows b a = false) ->
  (forall a b c, In a (x :: l) -> In b (x :: l) -> In c (x :: l) ->
                 follows a c = true -> follows a b = true \/ follows b c = true) ->
  StronglySorted (fun a b => follows a b = false) l ->
  StronglySorted (fun a b => follows a b = false) (sortInsert comparefn x l).
Proof.
  intros follows Hasym Htrans Hs.
  induction l as [|y l IH]; simpl.
  - constructor; constructor.
  - apply StronglySorted_inv in Hs. destruct Hs as [Hl Hy].
    fold (follows x y). destruct (follows x y) eqn:E.
    + constructor.
      * apply IH; [| |assumption].
        -- intros a b Ha Hb. apply Hasym; simpl in *; tauto.
        -- intros a b c Ha Hb Hc. apply Htrans; simpl in *; tauto.
      * assert (Hp := sortInsert_Permutation comparefn x l).
        apply Forall_forall. intros z Hz.
        apply (Permutation_in _ Hp) in Hz. destruct Hz as [<- | Hz].
        -- apply Hasym; simpl; auto.
        -- rewrite Forall_forall in Hy. now apply Hy.
    + constructor; [now constructor|].
      constructor; [assumption|].
      apply Forall_forall. intros z Hz.
      rewrite Forall_forall in Hy. specialize (Hy z Hz).
      destruct (follows x z) eqn:F; [|reflexivity].
      destruct (Htrans x y z) as [H|H]; simpl; auto; congruence.
Qed.

Lemma sort_sorted {A : Type} (comparefn : A -> A -> num) (l : list A) :
  let follows a b := num_ltb num_zero (comparefn a b) in
  (forall a b, In a l -> In b l -> follows a b = true -> follows b a = false) ->
  (forall a b c, In a l -> In b l -> In c l ->
                 follows a c = true -> follows a b = true \/ follows b c = true) ->
  StronglySorted (fun a b => follows a b = false) (sort comparefn l).
Proof.
  intros follows Hasym Htrans.
  induction l as [|x l IH]; simpl; [constructor|].
  assert (Hin : forall z, In z (x :: sort comparefn l) -> In z (x :: l)).
  { intros z [<- | Hz]; simpl; [auto|].
    right. now apply (Permutation_in _ (sort_Permutation comparefn l)). }
  apply sortInsert_sorted.
  - intros a b Ha Hb. apply Hasym; now apply Hin.
  - intros a b c Ha Hb Hc. apply Htrans; now apply Hin.
  - apply IH.
    + intros a b Ha Hb. apply Hasym; simpl; auto.
    + intros a b c Ha Hb Hc. apply Htrans; simpl; auto.
Qed.

End SortFacts.

(** ** Totals under exact addition *)

Section ExactSums.

Context {num : Type} {numOps : Number num} {exact : ExactAdd num}.

Lemma num_add_zero_r (a : num) : num_add a num_zero = a.
Proof. rewrite num_add_comm. apply num_add_zero_l. Qed.

(** A summand can be taken out of the accumulator of a [reduce]. *)
Lemma reduce_add_shift {A : Type} (f : A -> num) (l : list A) (a b : num) :
  fold_left (fun acc x => num_add acc (f x)) l (num_add a b)
  = num_add a (fold_left (fun acc x => num_add acc (f x)) l b).
Proof.
  revert b. induction l as [|x l IH]; intros b; simpl; [reflexivity|].
  now rewrite num_add_assoc, IH.
Qed.

Lemma reduce_add_cons {A : Type} (f : A -> num) (x : A) (l : list A) :
  fold_left (fun acc x => num_add acc (f x)) (x :: l) num_zero
  = num_add (f x) (fold_left (fun acc x => num_add acc (f x)) l num_zero).
Proof.
  simpl. rewrite num_add_zero_l.
  rewrite <- (num_add_zero_r (f x)) at 1. apply reduce_add_shift.
Qed.

Lemma reduce_add_Permutation {A : Type} (f : A -> num) (l l' : list A) :
  Permutation l l' ->
  forall a, fold_left (fun acc x => num_add acc (f x)) l a
            = fold_left (fun acc x => num_add acc (f x)) l' a.
Proof.
  induction 1 as [|x l l' _ IH|x y l|l l' l'' _ IH1 _ IH2]; intros a; simpl.
  - reflexivity.
  - apply IH.
  - f_equal. rewrite !num_add_assoc. f_equal. apply num_add_comm.
  - now rewrite IH1.
Qed.

(** One pass of the grouping adds the amount of the transaction to the sum
    of the group totals. *)
Lemma addToGroups_sum (groups : list (Group.t num)) (t : Tx.t num) (a : num) :
  fold_left (fun acc g => num_add acc (Group.total g)) (addToGroups groups t) a
  = num_add
      (fold_left (fun acc g => num_add acc (Group.total g)) groups a)
      (Tx.amount t).
Proof.
  revert a. induction groups as [|g rest IH]; intros a; simpl.
  - now rewrite num_add_zero_l.
  - destruct (Group.key g =? groupKey t)%string; simpl.
    + rewrite <- num_add_assoc.
      rewrite (num_add_comm (num_add a (Group.total g))).
      rewrite reduce_add_shift. apply num_add_comm.
    + apply IH.
Qed.

Lemma grouping_sum (filtered : list (Tx.t num)) (groups : list (Group.t num)) :
  sumGroupTotals (fold_left addToGroups filtered groups)
  = num_add (sumGroupTotals groups)
      (fold_left (fun acc t => num_add acc (Tx.amount t)) filtered num_zero).
Proof.
  revert groups. induction filtered as [|t l IH]; intros groups.
  - simpl. now rewrite num_add_zero_r.
  - rewrite reduce_add_cons. cbn [fold_left]. rewrite IH.
    unfold sumGroupTotals at 1. rewrite addToGroups_sum.
    fold (sumGroupTotals groups). apply num_add_assoc.
Qed.

(** Every amount is counted in the income or in the expense. *)
Lemma amounts_split_by_type (filtered : list (Tx.t num)) :
  fold_left (fun acc t => num_add acc (Tx.amount t)) filtered num_zero
  = num_add (sumOfType TxType.Income filtered)
      (sumOfType TxType.Expense filtered).
Proof.
  unfold sumOfType, toNumber.
  induction filtered as [|t l IH].
  - simpl. now rewrite num_add_zero_l.
  - rewrite reduce_add_cons, IH. cbn [filter].
    destruct (Tx.type t); cbn [TxType.eqb]; rewrite reduce_add_cons.
    + now rewrite num_add_assoc.
    + rewrite <- !num_add_assoc. f_equal. apply num_add_comm.
Qed.

End ExactSums.

(** When the addition of amounts is exact (associative and commutative,
    with 0 neutral), as on whole numbers, the sum of the totals of the
    groups of a filtered set is the income total plus the expense total of
    that set.  Binary64 addition is not exact in this sense. *)
Lemma group_totals_under_exact_addition {num : Type}
  {numOps : Number num} {exact : ExactAdd num} (filtered : list (Tx.t num)) :
  sumGroupTotals (getGroupedTransactions filtered)
  = num_add (income (getTotals filtered)) (expense (getTotals filtered)).
Proof.
  unfold getGroupedTransactions, getTotals. cbn [income expense].
  unfold sumGroupTotals at 1.
  rewrite (reduce_add_Permutation Group.total _ _
             (sort_Permutation compareGroups _)).
  fold (sumGroupTotals (fold_left addToGroups filtered [])).
  rewrite grouping_sum. unfold sumGroupTotals at 1. simpl.
  rewrite num_add_zero_l. apply amounts_split_by_type.
Qed.

Example group_totals_of_whole_amounts :
  sumGroupTotals (getGroupedTransactions wholeLedger) = 1079
  /\ income (getTotals wholeLedger) = 1020
  /\ expense (getTotals wholeLedger) = 59.
Proof. repeat split. Qed.

(** ** The grouped view: one group per pair *)

Lemma groupKeyOf_inj (a b : TxType.t) (c d : string) :
  groupKeyOf a c = groupKeyOf b d -> a = b /\ c = d.
Proof.
  unfold groupKeyOf. destruct a, b; simpl; intros H;
    try discriminate; injection H as ->; auto.
Qed.

Section GroupingFacts.

Context {num : Type} {numOps : Number num}.

Local Abbreviation Transaction := (Tx.t num).
Local Abbreviation Group := (Group.t num).

Lemma inGroup_true (g : Group) (t : Transaction) :
  inGroup g t = true
  <-> Tx.type t = Group.type g /\ Tx.category t = Group.category g.
Proof.
  unfold inGroup. now rewrite andb_true_iff, TxType_eqb_eq, String.eqb_eq.
Qed.

(** The lookup [groups[key]] finds the group of the pair of [t]. *)
Lemma key_test (g : Group) (t : Transaction) :
  Group.key g = groupKeyOf (Group.type g) (Group.category g) ->
  (Group.key g =? groupKey t)%string = inGroup g t.
Proof.
  intros Hk. destruct (inGroup g t) eqn:E.
  - apply inGroup_true in E. destruct E as [Ht Hc].
    apply String.eqb_eq. rewrite Hk. unfold groupKey. now rewrite Ht, Hc.
  - apply String.eqb_neq. intros Heq. rewrite Hk in Heq.
    apply groupKeyOf_inj in Heq. destruct Heq as [Ht Hc].
    assert (inGroup g t = true) by (apply inGroup_true; auto). congruence.
Qed.

Lemma addToGroups_keys (groups : list Group) (t : Transaction) :
  map Group.key (addToGroups groups t)
  = if existsb (fun g => (Group.key g =? groupKey t)%string) groups
    then map Group.key groups
    else (map Group.key groups ++ [groupKey t])%list.
Proof.
  induction groups as [|g rest IH]; simpl; [reflexivity|].
  destruct (Group.key g =? groupKey t)%string; simpl; [reflexivity|].
  rewrite IH. now destruct (existsb _ rest).
Qed.

Lemma addToGroups_NoDup (groups : list Group) (t : Transaction) :
  NoDup (map Group.key groups) ->
  NoDup (map Group.key (addToGroups groups t)).
Proof.
  intros Hnd. rewrite addToGroups_keys.
  destruct (existsb _ groups) eqn:E; [assumption|].
  apply NoDup_app; [assumption | repeat constructor; simpl; tauto |].
  intros k Hk [<- | []].
  apply in_map_iff in Hk. destruct Hk as (g & Hg & Hin).
  assert (Hex : existsb (fun g => (Group.key g =? groupKey t)%string) groups
                = true).
  { apply existsb_exists. exists g. split; [assumption|].
    now apply String.eqb_eq. }
  congruence.
Qed.

(** A group whose pair is not the pair of [t] is not touched by [t]. *)
Lemma groupOf_skip (l : list Transaction) (t : Transaction) (g : Group) :
  inGroup g t = false -> groupOf l g -> groupOf (l ++ [t]) g.
Proof.
  intros Hn (Hk & Ht & Hne & Htot). repeat split; try assumption.
  rewrite filter_app. simpl. rewrite Hn. now rewrite app_nil_r.
Qed.

Lemma addToGroups_groupOf (l : list Transaction) (t : Transaction) :
  forall groups : list Group,
    Forall (groupOf l) groups ->
    NoDup (map Group.key groups) ->
    (forall t', In t' l ->
                Tx.type t' = Tx.type t -> Tx.category t' = Tx.category t ->
                exists g, In g groups /\ inGroup g t' = true) ->
    Forall (groupOf (l ++ [t])) (addToGroups groups t).
Proof.
  induction groups as [|g rest IH]; intros Hall Hnd Hcov; simpl.
  - constructor; [|constructor].
    assert (Hnone : filter
                      (inGroup (Group.mk (groupKey t) (Tx.category t) (Tx.type t)
                                  (num_add num_zero (Tx.amount t)) [t])) l = []).
    { destruct (filter _ l) as [|t' l'] eqn:E; [reflexivity|].
      assert (Hin : In t' (t' :: l')) by (simpl; auto).
      rewrite <- E in Hin. apply filter_In in Hin. destruct Hin as [Hin Hp].
      apply inGroup_true in Hp. simpl in Hp. destruct Hp as [Hty Hc].
      destruct (Hcov t' Hin Hty Hc) as (g & [] & _). }
    unfold groupOf. simpl. rewrite filter_app, Hnone. simpl.
    unfold inGroup at 1. simpl. rewrite TxType_eqb_refl, String.eqb_refl.
    simpl. repeat split; try reflexivity. discriminate.
  - apply Forall_cons_iff in Hall. destruct Hall as [Hg Hrest].
    simpl in Hnd. apply NoDup_cons_iff in Hnd. destruct Hnd as [Hnotin Hnd].
    pose proof Hg as (Hk & Ht & Hne & Htot).
    rewrite (key_test g t Hk). destruct (inGroup g t) eqn:E.
    + constructor.
      * unfold groupOf. simpl. repeat split.
        -- exact Hk.
        -- rewrite filter_app. simpl.
           change (inGroup (Group.mk (Group.key g) (Group.category g)
                              (Group.type g)
                              (num_add (Group.total g) (Tx.amount t))
                              (Group.transactions g ++ [t])))
             with (inGroup g).
           now rewrite E, Ht.
        -- intros H. now apply app_eq_nil in H.
        -- rewrite fold_left_app. simpl. now rewrite <- Htot.
      * rewrite Forall_forall in Hrest |- *. intros g2 Hg2.
        apply groupOf_skip; [|now apply Hrest].
        pose proof (Hrest g2 Hg2) as (Hk2 & _).
        rewrite <- (key_test g2 t Hk2). apply String.eqb_neq. intros Heq.
        apply Hnotin. apply in_map_iff. exists g2. split; [|assumption].
        rewrite Heq. symmetry. apply String.eqb_eq.
        now rewrite (key_test g t Hk).
    + constructor; [now apply groupOf_skip|].
      apply IH; [assumption | assumption |].
      intros t' Hin Hty Hc. destruct (Hcov t' Hin Hty Hc) as (g0 & [<- | Hg0] & Hp).
      * apply inGroup_true in Hp.
        assert (inGroup g t = true).
        { apply inGroup_true. destruct Hp. split; congruence. }
        congruence.
      * exists g0. auto.
Qed.

(** After the pass every pair seen so far, the one of [t] included, has
    its group. *)
Lemma addToGroups_covers (groups : list Group) (t : Transaction) :
  Forall (fun g => Group.key g
                   = groupKeyOf (Group.type g) (Group.category g)) groups ->
  (forall g, In g groups ->
             exists g', In g' (addToGroups groups t)
                        /\ Group.type g' = Group.type g
                        /\ Group.category g' = Group.category g)
  /\ exists g', In g' (addToGroups groups t) /\ inGroup g' t = true.
Proof.
  induction groups as [|g rest IH]; intros Hkeys; simpl.
  - split; [intros g []|]. eexists. split; [left; reflexivity|].
    unfold inGroup. simpl. now rewrite TxType_eqb_refl, String.eqb_refl.
  - apply Forall_cons_iff in Hkeys. destruct Hkeys as [Hk Hkeys].
    rewrite (key_test g t Hk). destruct (inGroup g t) eqn:E.
    + split.
      * intros g0 [<- | Hin].
        -- eexists. split; [left; reflexivity|]. simpl. auto.
        -- exists g0. simpl. auto.
      * eexists. split; [left; reflexivity|]. exact E.
    + destruct (IH Hkeys) as [Hold Hnew]. split.
      * intros g0 [<- | Hin].
        -- exists g. simpl. auto.
        -- destruct (Hold g0 Hin) as (g' & Hin' & Heq).
           exists g'. simpl. auto.
      * destruct Hnew as (g' & Hin' & Hp). exists g'. simpl. auto.
Qed.

(** The groups made of a filtered set: one per pair of that set. *)
Lemma grouping_invariant (filtered : list Transaction) :
  let groups := fold_left addToGroups filtered [] in
  Forall (groupOf filtered) groups
  /\ NoDup (map Group.key groups)
  /\ (forall t, In t filtered -> exists g, In g groups /\ inGroup g t = true).
Proof.
  induction filtered as [|t l IH] using rev_ind.
  - simpl. split; [constructor|]. split; [constructor|]. intros t [].
  - rewrite fold_left_app. simpl.
    destruct IH as (Hall & Hnd & Hcov).
    assert (Hkeys : Forall (fun g => Group.key g
                       = groupKeyOf (Group.type g) (Group.category g))
                      (fold_left addToGroups l [])).
    { eapply Forall_impl; [|exact Hall]. now intros g (Hk & _). }
    split; [|split].
    + apply addToGroups_groupOf; try assumption.
      intros t' Hin _ _. now apply Hcov.
    + now apply addToGroups_NoDup.
    + destruct (addToGroups_covers _ t Hkeys) as [Hold Hnew].
      intros t' Hin. apply in_app_or in Hin. destruct Hin as [Hin | [<- | []]].
      * destruct (Hcov t' Hin) as (g & Hg & Hp).
        destruct (Hold g Hg) as (g' & Hg' & Hty & Hc).
        exists g'. split; [assumption|].
        apply inGroup_true. apply inGroup_true in Hp.
        destruct Hp. split; congruence.
      * exact Hnew.
Qed.

End GroupingFacts.

(** ** Totals of amounts that are whole numbers of a unit *)

Lemma sumUnits_app {A : Type} (units : A -> Z) (l l' : list A) :
  sumUnits units (l ++ l')%list = sumUnits units l + sumUnits units l'.
Proof. induction l as [|x l IH]; simpl; lia. Qed.

Lemma sumUnits_Permutation {A : Type} (units : A -> Z) (l l' : list A) :
  Permutation l l' -> sumUnits units l = sumUnits units l'.
Proof. induction 1; simpl; lia. Qed.

Lemma sumUnits_abs {A : Type} (units : A -> Z) (l : list A) :
  Z.abs (sumUnits units l) <= sumUnits (fun x => Z.abs (units x)) l.
Proof. induction l as [|x l IH]; simpl; lia. Qed.

Lemma sumUnits_filter {A : Type} (units : A -> Z) (f : A -> bool) (l : list A) :
  0 <= sumUnits (fun x => Z.abs (units x)) (filter f l)
    <= sumUnits (fun x => Z.abs (units x)) l.
Proof.
  induction l as [|x l IH]; simpl; [lia|].
  destruct (f x); simpl; lia.
Qed.

(** Each element is of the one or of the other type. *)
Lemma sumUnits_by_type {num : Type} (units : Tx.t num -> Z)
  (l : list (Tx.t num)) :
  sumUnits units (filter (fun t => TxType.eqb (Tx.type t) TxType.Income) l)
  + sumUnits units (filter (fun t => TxType.eqb (Tx.type t) TxType.Expense) l)
  = sumUnits units l.
Proof.
  induction l as [|t l IH]; simpl; [reflexivity|].
  destruct (Tx.type t); simpl; lia.
Qed.

Section ExactUnits.

Context {num : Type} {numOps : Number num}.

Variable ofZ : Z -> num.
Variable bound : Z.

Hypothesis add_exact : forall p q,
  Z.abs p <= bound -> Z.abs q <= bound -> Z.abs (p + q) <= bound ->
  num_add (ofZ p) (ofZ q) = ofZ (p + q).

(** A [reduce] that adds numbers of units adds the units, as long as the
    absolute values stay within the bound. *)
Lemma reduce_units {A : Type} (val : A -> num) (units size : A -> Z)
  (l : list A) :
  (forall x, In x l -> val x = ofZ (units x) /\ Z.abs (units x) <= size x) ->
  forall p, Z.abs p + sumUnits size l <= bound ->
  fold_left (fun acc x => num_add acc (val x)) l (ofZ p)
  = ofZ (p + sumUnits units l).
Proof.
  induction l as [|x l IH]; intros Hl p Hp; simpl in *.
  - now rewrite Z.add_0_r.
  - destruct (Hl x (or_introl eq_refl)) as [Hv Hs].
    assert (Hpos : 0 <= sumUnits size l).
    { clear - Hl. induction l as [|y l IH]; simpl; [lia|].
      destruct (Hl y (or_intror (or_introl eq_refl))) as [_ Hy].
      assert (0 <= sumUnits size l)
        by (apply IH; intros z [<-|Hz]; apply Hl; simpl; auto).
      lia. }
    rewrite Hv, add_exact by lia.
    rewrite IH by (auto || lia). f_equal. lia.
Qed.

(** One pass of the grouping adds the units of the transaction to those of
    the groups. *)
Lemma addToGroups_units (units : Tx.t num -> Z) (groups : list (Group.t num))
  (t : Tx.t num) :
  sumUnits (fun g => sumUnits units (Group.transactions g))
    (addToGroups groups t)
  = sumUnits (fun g => sumUnits units (Group.transactions g)) groups
    + units t.
Proof.
  induction groups as [|g rest IH]; simpl; [lia|].
  destruct (Group.key g =? groupKey t)%string; simpl.
  - rewrite sumUnits_app. simpl. lia.
  - rewrite IH. lia.
Qed.

Lemma grouping_units (units : Tx.t num -> Z) (filtered : list (Tx.t num)) :
  forall groups,
    sumUnits (fun g => sumUnits units (Group.transactions g))
      (fold_left addToGroups filtered groups)
    = sumUnits (fun g => sumUnits units (Group.transactions g)) groups
      + sumUnits units filtered.
Proof.
  induction filtered as [|t l IH]; intros groups; simpl; [lia|].
  rewrite IH, addToGroups_units. lia.
Qed.

End ExactUnits.

(** C6 (as amended).  Let the amounts of a filtered set be whole numbers
    of one unit ([Tx.amount t = ofZ (units t)], of either sign), and let the
    addition of two such numbers be exact whenever the operands and the
    result are at most [bound] units in absolute value, [bound] being at
    least the absolute amounts of the set added up.  Then the sum of the
    totals of the groups is the income total plus the expense total, and
    both are the amounts of the set added up exactly.  The numbers are
    those of any instance of [Number], binary64 included. *)
Theorem group_totals_equal_totals_on_exact_units {num : Type}
  {numOps : Number num} (ofZ : Z -> num) (units : Tx.t num -> Z) (bound : Z)
  (filtered : list (Tx.t num)) :
  ofZ 0 = num_zero ->
  (forall p q,
     Z.abs p <= bound -> Z.abs q <= bound -> Z.abs (p + q) <= bound ->
     num_add (ofZ p) (ofZ q) = ofZ (p + q)) ->
  (forall t, In t filtered -> Tx.amount t = ofZ (units t)) ->
  sumUnits (fun t => Z.abs (units t)) filtered <= bound ->
  sumGroupTotals (getGroupedTransactions filtered)
  = num_add (income (getTotals filtered)) (expense (getTotals filtered))
  /\ sumGroupTotals (getGroupedTransactions filtered)
     = ofZ (sumUnits units filtered).
Proof.
  intros Hzero Hexact Hunits Hbound.
  set (size := fun t : Tx.t num => Z.abs (units t)) in *.
  assert (Hpart : forall f : Tx.t num -> bool,
            fold_left (fun acc t => num_add acc (Tx.amount t))
              (filter f filtered) num_zero
            = ofZ (sumUnits units (filter f filtered))).
  { intros f. rewrite <- Hzero.
    rewrite (reduce_units ofZ bound Hexact Tx.amount units size).
    - reflexivity.
    - intros t Ht. apply filter_In in Ht. destruct Ht as [Ht _].
      split; [now apply Hunits | unfold size; lia].
    - pose proof (sumUnits_filter units f filtered). fold size in H.
      simpl. lia. }
  assert (Hgroups : sumGroupTotals (getGroupedTransactions filtered)
                    = ofZ (sumUnits units filtered)).
  { unfold getGroupedTransactions, sumGroupTotals.
    destruct (grouping_invariant filtered) as (Hall & _ & _).
    set (unsorted := fold_left addToGroups filtered []) in *.
    assert (Hperm := sort_Permutation compareGroups unsorted).
    rewrite Forall_forall in Hall.
    rewrite <- Hzero.
    rewrite (reduce_units ofZ bound Hexact Group.total
               (fun g => sumUnits units (Group.transactions g))
               (fun g => sumUnits size (Group.transactions g))).
    - rewrite (sumUnits_Permutation _ _ _ Hperm). unfold unsorted.
      rewrite grouping_units. reflexivity.
    - intros g Hg. apply (Permutation_in _ Hperm) in Hg.
      destruct (Hall g Hg) as (_ & Ht & _ & Htot).
      split; [|apply sumUnits_abs].
      rewrite Htot, Ht. apply Hpart.
    - rewrite (sumUnits_Permutation _ _ _ Hperm). unfold unsorted.
      rewrite grouping_units. simpl. exact Hbound. }
  split; [|exact Hgroups].
  rewrite Hgroups. unfold getTotals. cbn [income expense].
  unfold sumOfType, toNumber. rewrite !Hpart.
  pose proof (sumUnits_by_type units filtered) as Hu.
  pose proof (sumUnits_filter units
                (fun t => TxType.eqb (Tx.type t) TxType.Income) filtered) as HI.
  pose proof (sumUnits_filter units
                (fun t => TxType.eqb (Tx.type t) TxType.Expense) filtered) as HE.
  pose proof (sumUnits_abs units
                (filter (fun t => TxType.eqb (Tx.type t) TxType.Income) filtered)).
  pose proof (sumUnits_abs units
                (filter (fun t => TxType.eqb (Tx.type t) TxType.Expense) filtered)).
  pose proof (sumUnits_abs units filtered).
  fold size in HI, HE, H, H0, H1.
  rewrite Hexact by lia. now rewrite Hu.
Qed.

(** A property of the numbers of a range is checked on each one. *)
Lemma Z_range_cases (P : Z -> Prop) (lo : Z) (n : nat) :
  Forall P (map (fun i => lo + Z.of_nat i) (seq 0 n)) ->
  forall p, lo <= p < lo + Z.of_nat n -> P p.
Proof.
  intros H p Hp. rewrite Forall_forall in H. apply H.
  apply in_map_iff. exists (Z.to_nat (p - lo)). split; [lia|].
  apply in_seq. lia.
Qed.

(** Binary64 addition of quarters is exact up to twelve quarters. *)
Lemma quarters_add_exact (p q : Z) :
  Z.abs p <= 12 -> Z.abs q <= 12 -> Z.abs (p + q) <= 12 ->
  PrimFloat.add (ofQuarters p) (ofQuarters q) = ofQuarters (p + q).
Proof.
  intros Hp Hq _. revert q Hq.
  assert (Hr : -12 <= p < -12 + Z.of_nat 25) by lia. revert p Hr Hp.
  apply (Z_range_cases
           (fun p => Z.abs p <= 12 -> forall q, Z.abs q <= 12 ->
              PrimFloat.add (ofQuarters p) (ofQuarters q) = ofQuarters (p + q))).
  cbv [map seq].
  repeat (constructor; [intros _ q Hq;
    assert (Hr : -12 <= q < -12 + Z.of_nat 25) by lia; revert q Hr Hq;
    apply (Z_range_cases (fun q => Z.abs q <= 12 -> _)); cbv [map seq];
    repeat (constructor; [intros _; vm_compute; reflexivity|]); constructor |]).
  constructor.
Qed.

Lemma group_totals_equal_totals_on_exact_units_witness :
  let filtered := getFilteredTransactions ledgerOfQuarters in
  map Tx.amount filtered = [0.5%float; 0.75%float; 0.25%float; 1.5%float]
  /\ map (fun t => quarters (Tx.amount t)) filtered = [2; 3; 1; 6]
  /\ (sumGroupTotals (getGroupedTransactions filtered)
      = num_add (income (getTotals filtered)) (expense (getTotals filtered))
      /\ sumGroupTotals (getGroupedTransactions filtered)
         = ofQuarters (sumUnits (fun t => quarters (Tx.amount t)) filtered)).
Proof.
  split; [vm_compute; reflexivity|]. split; [vm_compute; reflexivity|].
  apply (group_totals_equal_totals_on_exact_units ofQuarters
           (fun t => quarters (Tx.amount t)) 12
           (getFilteredTransactions ledgerOfQuarters)).
  - reflexivity.
  - exact quarters_add_exact.
  - let l := eval vm_compute in (getFilteredTransactions ledgerOfQuarters) in
    assert (E : getFilteredTransactions ledgerOfQuarters = l)
      by (vm_compute; reflexivity).
    rewrite E. intros t [<-|[<-|[<-|[<-|[]]]]]; vm_compute; reflexivity.
  - vm_compute. discriminate.
Defined.

(** C6 as stated fails on binary64 amounts: with the prices 12.50, 0.20
    and 0.10 saved in this order, the second under another category, the
    group totals add up to 12.799999999999999 and the expense total is
    12.8. *)
Lemma rounding_separates_group_totals_from_totals :
  let filtered := getFilteredTransactions ledgerOfPrices in
  map Tx.category filtered = ["Food"; "Transport"; "Food"]
  /\ map Tx.amount filtered
     = [JSFloat.parseFloat "0.10"; JSFloat.parseFloat "0.20"; 12.5%float]
  /\ sumGroupTotals (getGroupedTransactions filtered)
     = JSFloat.parseFloat "12.799999999999999"
  /\ num_add (income (getTotals filtered)) (expense (getTotals filtered))
     = JSFloat.parseFloat "12.8"
  /\ PrimFloat.eqb
       (sumGroupTotals (getGroupedTransactions filtered))
       (num_add (income (getTotals filtered)) (expense (getTotals filtered)))
     = false.
Proof. vm_compute. repeat split; reflexivity. Qed.

(** ** The grouped view: the order of the groups *)

Section OrderFacts.

Context {num : Type} {numOps : Number num}.

Local Abbreviation Group := (Group.t num).

Lemma StronglySorted_impl_In {A : Type} (R R' : A -> A -> Prop) (l : list A) :
  (forall a b, In a l -> In b l -> R a b -> R' a b) ->
  StronglySorted R l -> StronglySorted R' l.
Proof.
  induction l as [|x l IH]; intros Himp Hs; [constructor|].
  apply StronglySorted_inv in Hs. destruct Hs as [Hs Hx].
  constructor.
  - apply IH; [|assumption]. intros a b Ha Hb. apply Himp; simpl; auto.
  - rewrite Forall_forall in Hx |- *. intros b Hb.
    apply Himp; simpl; auto.
Qed.

(** What [comparable] gives on the members of the list. *)
Lemma comparable_spec (totals : list num) :
  comparable totals = true ->
  num_ltb num_zero num_one = true
  /\ num_ltb num_zero (num_neg num_one) = false
  /\ (forall a b, In a totals -> In b totals ->
        num_ltb num_zero (num_sub b a) = num_ltb a b
        /\ (num_ltb a b = true -> num_ltb b a = false))
  /\ (forall a b c, In a totals -> In b totals -> In c totals ->
        num_ltb a c = true -> num_ltb a b = true \/ num_ltb b c = true).
Proof.
  unfold comparable. rewrite !andb_true_iff, negb_true_iff.
  intros [[H1 Hm1] Hall]. split; [assumption|]. split; [assumption|].
  assert (Htriple : forall a b c, In a totals -> In b totals -> In c totals ->
                                  orderedTriple a b c = true).
  { intros a b c Ha Hb Hc. rewrite forallb_forall in Hall.
    specialize (Hall a Ha). rewrite forallb_forall in Hall.
    specialize (Hall b Hb). rewrite forallb_forall in Hall.
    now apply Hall. }
  split.
  - intros a b Ha Hb. specialize (Htriple a b b Ha Hb Hb).
    unfold orderedTriple in Htriple.
    rewrite !andb_true_iff in Htriple. destruct Htriple as [[He Has] _].
    apply Bool.eqb_prop in He. split; [assumption|].
    intros Hab. rewrite Hab in Has. simpl in Has.
    now apply negb_true_iff in Has.
  - intros a b c Ha Hb Hc Hac. specialize (Htriple a b c Ha Hb Hc).
    unfold orderedTriple in Htriple.
    rewrite !andb_true_iff in Htriple. destruct Htriple as [_ Ht].
    rewrite Hac in Ht. simpl in Ht. now apply orb_true_iff in Ht.
Qed.

(** A total is among the totals of the type of its group. *)
Lemma totalsOfType_In (groups : list Group) (g : Group) :
  In g groups -> In (Group.total g) (totalsOfType (Group.type g) groups).
Proof.
  intros Hg. unfold totalsOfType. apply in_map. apply filter_In.
  split; [assumption | apply TxType_eqb_refl].
Qed.

(** When the totals of each type are comparable, the comparator reads as
    [mustFollow] on the groups. *)
Lemma compareGroups_mustFollow_by_type (groups : list Group) (g1 g2 : Group) :
  (forall ty, comparable (totalsOfType ty groups) = true) ->
  In g1 groups -> In g2 groups ->
  num_ltb num_zero (compareGroups g1 g2) = mustFollow g1 g2.
Proof.
  intros Hc H1 H2.
  apply totalsOfType_In in H1, H2.
  unfold compareGroups, mustFollow.
  destruct (Group.type g1) eqn:E1, (Group.type g2) eqn:E2; simpl.
  - destruct (comparable_spec _ (Hc TxType.Income)) as (_ & _ & Hsub & _).
    now apply Hsub.
  - now destruct (comparable_spec _ (Hc TxType.Income)) as (_ & Hneg & _).
  - now destruct (comparable_spec _ (Hc TxType.Income)) as (Hone & _).
  - destruct (comparable_spec _ (Hc TxType.Expense)) as (_ & _ & Hsub & _).
    now apply Hsub.
Qed.

Lemma groups_sorted_by_type (groups : list Group) :
  (forall ty, comparable (totalsOfType ty groups) = true) ->
  StronglySorted groupOrder (sort compareGroups groups).
Proof.
  intros Hc.
  assert (Hread : forall a b, In a groups -> In b groups ->
                    num_ltb num_zero (compareGroups a b) = mustFollow a b).
  { intros a b Ha Hb. now apply (compareGroups_mustFollow_by_type groups). }
  assert (Hlaws : forall a b c, In a groups -> In b groups -> In c groups ->
            Group.type a = Group.type b -> Group.type b = Group.type c ->
            (num_ltb (Group.total a) (Group.total b) = true ->
             num_ltb (Group.total b) (Group.total a) = false)
            /\ (num_ltb (Group.total a) (Group.total c) = true ->
                num_ltb (Group.total a) (Group.total b) = true
                \/ num_ltb (Group.total b) (Group.total c) = true)).
  { intros a b c Ha Hb Hc' Eab Ebc.
    apply totalsOfType_In in Ha, Hb, Hc'. rewrite <- Ebc, <- Eab in Hc'.
    rewrite <- Eab in Hb.
    destruct (comparable_spec _ (Hc (Group.type a))) as (_ & _ & Hsub & Htrans).
    split; [now apply Hsub | now apply Htrans]. }
  apply StronglySorted_impl_In
    with (R := fun a b => num_ltb num_zero (compareGroups a b) = false).
  - intros a b Ha Hb.
    apply (Permutation_in _ (sort_Permutation compareGroups groups)) in Ha, Hb.
    rewrite (Hread a b Ha Hb). unfold mustFollow, groupOrder.
    destruct (Group.type a), (Group.type b); intros H; split; intros E;
      congruence.
  - apply sort_sorted.
    + intros a b Ha Hb. rewrite (Hread a b Ha Hb), (Hread b a Hb Ha).
      pose proof (Hlaws a b b Ha Hb Hb) as L.
      unfold mustFollow.
      destruct (Group.type a), (Group.type b); try congruence;
        now apply L.
    + intros a b c Ha Hb Hc'.
      rewrite (Hread a c Ha Hc'), (Hread a b Ha Hb), (Hread b c Hb Hc').
      pose proof (Hlaws a b c Ha Hb Hc') as L.
      unfold mustFollow.
      destruct (Group.type a), (Group.type b), (Group.type c); auto;
        try discriminate; now apply L.
Qed.

End OrderFacts.

(** X25.  The grouped view has one group for each pair of a type and a
    category that a transaction of the filtered set has, and no other
    group: the pairs of the groups are pairwise distinct, a pair has a group
    exactly when a transaction has it, and each group holds the
    transactions of its pair, in ledger order, with their amounts added up.
    When the totals of the Income groups are comparable with one another,
    and so are those of the Expense groups (no [NaN] total beside two
    different totals of its type), every Income group stands before every
    Expense group, and groups of one type stand in descending order of
    total. *)
Theorem grouped_view_has_one_group_per_pair {num : Type}
  {numOps : Number num} (filtered : list (Tx.t num)) :
  let groups := getGroupedTransactions filtered in
  NoDup (map (fun g => (Group.type g, Group.category g)) groups)
  /\ (forall ty c,
        (exists g, In g groups /\ Group.type g = ty /\ Group.category g = c)
        <-> (exists t, In t filtered /\ Tx.type t = ty /\ Tx.category t = c))
  /\ (forall g, In g groups -> groupOf filtered g)
  /\ ((forall ty, comparable (totalsOfType ty groups) = true) ->
      StronglySorted groupOrder groups).
Proof.
  intros groups. subst groups. unfold getGroupedTransactions.
  destruct (grouping_invariant filtered) as (Hall & Hnd & Hcov).
  set (unsorted := fold_left addToGroups filtered []) in *.
  assert (Hperm := sort_Permutation compareGroups unsorted).
  assert (Hin : forall g, In g (sort compareGroups unsorted) <-> In g unsorted).
  { intros g. split; apply Permutation_in;
      [assumption | now apply Permutation_sym]. }
  rewrite Forall_forall in Hall.
  split; [|split; [|split]].
  - apply (Permutation_NoDup
             (Permutation_map _ (Permutation_sym Hperm))).
    apply (NoDup_map_inv (fun p => groupKeyOf (fst p) (snd p))).
    rewrite map_map. simpl.
    erewrite map_ext_in; [exact Hnd|].
    intros g Hg. symmetry. apply (Hall g Hg).
  - intros ty c. split.
    + intros (g & Hg & Hty & Hc). apply Hin in Hg.
      destruct (Hall g Hg) as (_ & Ht & Hne & _).
      destruct (Group.transactions g) as [|t l] eqn:E; [contradiction|].
      assert (Hm : In t (filter (inGroup g) filtered)).
      { rewrite <- Ht. simpl. auto. }
      apply filter_In in Hm. destruct Hm as [Hm Hp].
      apply inGroup_true in Hp. destruct Hp.
      exists t. repeat split; congruence.
    + intros (t & Ht & Hty & Hc).
      destruct (Hcov t Ht) as (g & Hg & Hp).
      apply inGroup_true in Hp. destruct Hp.
      exists g. split; [now apply Hin|]. split; congruence.
  - intros g Hg. apply Hall. now apply Hin.
  - intros Hc. apply groups_sorted_by_type.
    intros ty. specialize (Hc ty).
    revert Hc. unfold comparable. rewrite !andb_true_iff.
    intros [Hk Hf]. split; [assumption|].
    assert (Hmem : forall x, In x (totalsOfType ty unsorted) ->
                             In x (totalsOfType ty (sort compareGroups unsorted))).
    { intros x. unfold totalsOfType. rewrite !in_map_iff.
      intros (g & <- & Hg). exists g. split; [reflexivity|].
      apply filter_In in Hg. apply filter_In. destruct Hg as [Hg Hty].
      split; [now apply Hin | assumption]. }
    rewrite forallb_forall in Hf. apply forallb_forall. intros a Ha.
    specialize (Hf a (Hmem a Ha)).
    rewrite forallb_forall in Hf. apply forallb_forall. intros b Hb.
    specialize (Hf b (Hmem b Hb)).
    rewrite forallb_forall in Hf. apply forallb_forall. intros c Hc.
    apply Hf. now apply Hmem.
Qed.

Lemma grouped_view_has_one_group_per_pair_witness :
  let groups :=
    getGroupedTransactions (getFilteredTransactions ledgerWithDotIncome) in
  map (fun g => (Group.type g, Group.category g, Group.total g)) groups
  = [ (TxType.Income, "Salary", nan);
      (TxType.Expense, "Bills", 10%float);
      (TxType.Expense, "Food", 7%float) ]
  /\ comparable (map Group.total groups) = false
  /\ (forall ty, comparable (totalsOfType ty groups) = true)
  /\ StronglySorted groupOrder groups.
Proof.
  assert (H : forall ty,
            comparable
              (totalsOfType ty
                 (getGroupedTransactions
                    (getFilteredTransactions ledgerWithDotIncome))) = true)
    by (intros [|]; vm_compute; reflexivity).
  split; [vm_compute; reflexivity|]. split; [vm_compute; reflexivity|].
  split; [exact H|].
  exact (proj2 (proj2 (proj2 (grouped_view_has_one_group_per_pair
                                (getFilteredTransactions ledgerWithDotIncome))))
           H).
Defined.

Example grouped_view_on_sample :
  map (fun g => (Group.key g, Group.total g, map Tx.id (Group.transactions g)))
    (getGroupedTransactions sampleLedger)
  = [ ("Income-Salary", 1000%float, ["1741000000004"]);
      ("Income-Food", 20%float, ["1741000000001"]);
      ("Expense-Bills", 40%float, ["1741000000002"]);
      ("Expense-Food", 19.75%float, ["1741000000005"; "1741000000003"]) ].
Proof. vm_compute. reflexivity. Qed.

(** C7 fails on this input.  The amounts "10", "." and "5" are saved in
    this order under the Expense categories "Bills", "Food" and "Transport";
    the lone "." is stored as [NaN].  The groups are built in the order
    Transport (5), Food ([NaN]), Bills (10).  The tables give, for each
    group against each group in this order, whether the answer of the
    comparator is positive and whether it is negative: Transport has to
    follow Bills, and against the [NaN] total the answer is [NaN], neither
    positive nor negative, which [sort] reads as a tie.  Neighbours never
    have to be exchanged, and the view shows the total 5 before the total
    10.  The comment of the comparator in [getGroupedTransactions] announces
    the order by descending total. *)
Lemma nan_total_breaks_the_descending_order :
  let filtered := getFilteredTransactions ledgerWithDot in
  let unsorted := fold_left addToGroups filtered [] in
  let groups := getGroupedTransactions filtered in
  map Tx.amount (transactions ledgerWithDot) = [5%float; nan; 10%float]
  /\ map (fun g => (Group.type g, Group.category g, Group.total g)) unsorted
     = [ (TxType.Expense, "Transport", 5%float);
         (TxType.Expense, "Food", nan);
         (TxType.Expense, "Bills", 10%float) ]
  /\ map (fun a => map (fun b => num_ltb num_zero (compareGroups a b)) unsorted)
       unsorted
     = [ [false; false; true]; [false; false; false]; [false; false; false] ]
  /\ map (fun a => map (fun b => num_ltb (compareGroups a b) num_zero) unsorted)
       unsorted
     = [ [false; false; false]; [false; false; false]; [true; false; false] ]
  /\ map (fun g => (Group.type g, Group.category g, Group.total g)) groups
     = [ (TxType.Expense, "Transport", 5%float);
         (TxType.Expense, "Food", nan);
         (TxType.Expense, "Bills", 10%float) ]
  /\ PrimFloat.ltb 5 10 = true
  /\ ~ StronglySorted groupOrder groups.
Proof.
  split; [vm_compute; reflexivity|]. split; [vm_compute; reflexivity|].
  split; [vm_compute; reflexivity|]. split; [vm_compute; reflexivity|].
  split; [vm_compute; reflexivity|]. split; [vm_compute; reflexivity|].
  let l := eval vm_compute in
    (getGroupedTransactions (getFilteredTransactions ledgerWithDot)) in
  assert (E : getGroupedTransactions (getFilteredTransactions ledgerWithDot) = l)
    by (vm_compute; reflexivity).
  cbv zeta. rewrite E. intros H.
  apply StronglySorted_inv in H. destruct H as [_ H].
  apply Forall_inv_tail, Forall_inv in H. destruct H as [_ H].
  specialize (H eq_refl). vm_compute in H. discriminate.
Qed.

(** ** Navigation between months *)

Lemma month_after (y m : Z) :
  validMonth m -> (y + (m + 1) / 12, (m + 1) mod 12) = nextMonth y m.
Proof.
  unfold validMonth, nextMonth. intros H.
  destruct (Z.eqb_spec m 11) as [->|Hne]; [reflexivity|].
  rewrite Z.div_small, Z.mod_small by lia. f_equal. lia.
Qed.

Lemma month_before (y m : Z) :
  validMonth m -> (y + (m - 1) / 12, (m - 1) mod 12) = prevMonth y m.
Proof.
  unfold validMonth, prevMonth. intros H.
  destruct (Z.eqb_spec m 0) as [->|Hne]; [reflexivity|].
  rewrite Z.div_small, Z.mod_small by lia. f_equal. lia.
Qed.

Lemma setMonth_next (d : Date) :
  validMonth (month d) ->
  1 <= day d <= daysInMonth (fst (nextMonth (year d) (month d)))
                  (snd (nextMonth (year d) (month d))) ->
  setMonth d (month d + 1)
  = mkDate (fst (nextMonth (year d) (month d)))
      (snd (nextMonth (year d) (month d))) (day d) (msOfDay d).
Proof.
  intros Hm Hd. unfold setMonth.
  pose proof (month_after (year d) (month d) Hm) as E.
  destruct (nextMonth (year d) (month d)) as [y1 m1].
  injection E as -> ->. simpl in Hd. now rewrite carryDay_within.
Qed.

Lemma setMonth_prev (d : Date) :
  validMonth (month d) ->
  1 <= day d <= daysInMonth (fst (prevMonth (year d) (month d)))
                  (snd (prevMonth (year d) (month d))) ->
  setMonth d (month d - 1)
  = mkDate (fst (prevMonth (year d) (month d)))
      (snd (prevMonth (year d) (month d))) (day d) (msOfDay d).
Proof.
  intros Hm Hd. unfold setMonth.
  pose proof (month_before (year d) (month d) Hm) as E.
  destruct (prevMonth (year d) (month d)) as [y1 m1].
  injection E as -> ->. simpl in Hd. now rewrite carryDay_within.
Qed.

(** The day does not fit in the next month: it is carried into the month
    after. *)
Lemma setMonth_next_overflow (d : Date) :
  validMonth (month d) ->
  daysInMonth (fst (nextMonth (year d) (month d)))
    (snd (nextMonth (year d) (month d))) < day d <= 31 ->
  let y1 := fst (nextMonth (year d) (month d)) in
  let m1 := snd (nextMonth (year d) (month d)) in
  setMonth d (month d + 1)
  = mkDate (fst (nextMonth y1 m1)) (snd (nextMonth y1 m1))
      (day d - daysInMonth y1 m1) (msOfDay d).
Proof.
  intros Hm Hd y1 m1.
  assert (Hday : 28 < day d <= 31).
  { pose proof (daysInMonth_bounds y1 m1). subst y1 m1. lia. }
  assert (Hcarry : forall y m, carryDay (S (Z.to_nat (Z.abs (day d)))) y m (day d)
                               = (if daysInMonth y m <? day d
                                  then (fst (nextMonth y m), snd (nextMonth y m),
                                        day d - daysInMonth y m)
                                  else (y, m, day d))).
  { intros y m. cbn [carryDay].
    pose proof (daysInMonth_bounds y m).
    destruct (Z.ltb_spec (day d) 1); [lia|].
    destruct (Z.ltb_spec (daysInMonth y m) (day d)); [|reflexivity].
    destruct (nextMonth y m) as [y' m']. simpl.
    pose proof (daysInMonth_bounds y' m').
    now rewrite carryDay_within by lia. }
  assert (Htarget : (year d + (month d + 1) / 12, (month d + 1) mod 12)
                    = (y1, m1)).
  { subst y1 m1. rewrite (month_after _ _ Hm).
    now destruct (nextMonth (year d) (month d)). }
  unfold setMonth. injection Htarget as Hy Hmn. rewrite Hy, Hmn, Hcarry.
  destruct (Z.ltb_spec (daysInMonth y1 m1) (day d));
    [reflexivity | subst y1 m1; lia].
Qed.

Lemma setCurrentDate_same {num : Type} (s : AppState num) :
  setCurrentDate (currentDate s) s = s.
Proof. now destruct s. Qed.

(** X1.  The ">" arrow shows the next month, December being followed by
    January of the next year, with the day of the month kept, when that day
    exists in the next month; the "<" arrow then brings back the state the
    user started from. *)
Theorem changeMonth_forward_and_back {num : Type} (s : AppState num) :
  valid (currentDate s) ->
  getDate (currentDate s)
  <= daysInMonth (fst (nextMonth (getFullYear (currentDate s))
                         (getMonth (currentDate s))))
       (snd (nextMonth (getFullYear (currentDate s))
               (getMonth (currentDate s)))) ->
  (getFullYear (currentDate (changeMonth 1 s)),
   getMonth (currentDate (changeMonth 1 s)))
  = nextMonth (getFullYear (currentDate s)) (getMonth (currentDate s))
  /\ getDate (currentDate (changeMonth 1 s)) = getDate (currentDate s)
  /\ valid (currentDate (changeMonth 1 s))
  /\ changeMonth (-1) (changeMonth 1 s) = s.
Proof.
  unfold valid, getFullYear, getMonth, getDate. intros [Hm Hd] Hfit.
  assert (Hfwd : currentDate (changeMonth 1 s)
                 = mkDate (fst (nextMonth (year (currentDate s))
                                  (month (currentDate s))))
                     (snd (nextMonth (year (currentDate s))
                             (month (currentDate s))))
                     (day (currentDate s)) (msOfDay (currentDate s))).
  { unfold changeMonth, newDate, getMonth. simpl.
    apply setMonth_next; [assumption | lia]. }
  rewrite Hfwd. simpl.
  split; [now destruct (nextMonth _ _)|]. split; [reflexivity|].
  pose proof (nextMonth_valid (year (currentDate s)) (month (currentDate s)) Hm)
    as Hnv.
  split; [split; [assumption | lia]|].
  unfold changeMonth at 1. unfold newDate, getMonth. rewrite Hfwd.
  change (-1) with (- (1)). rewrite Z.add_opp_r.
  rewrite setMonth_prev; simpl; rewrite ?prevMonth_nextMonth by assumption;
    simpl; try assumption.
  unfold changeMonth. simpl.
  replace (mkDate (year (currentDate s)) (month (currentDate s))
             (day (currentDate s)) (msOfDay (currentDate s)))
    with (currentDate s) by now destruct (currentDate s).
  now destruct s.
Qed.

Lemma changeMonth_forward_and_back_witness :
  let s := stateOf sampleLedger Form.blank (mkDate 2025 11 15 3600000) in
  currentDate (changeMonth 1 s) = mkDate 2026 0 15 3600000
  /\ changeMonth (-1) (changeMonth 1 s) = s.
Proof.
  assert (Hv : valid (mkDate 2025 11 15 3600000))
    by (vm_compute; intuition discriminate).
  assert (Hfit : 15 <= 31) by lia.
  split; [reflexivity|].
  exact (proj2 (proj2 (proj2
           (changeMonth_forward_and_back
              (stateOf sampleLedger Form.blank (mkDate 2025 11 15 3600000))
              Hv Hfit)))).
Defined.

(** X2.  When the day of the month does not exist in the next month, the
    ">" arrow passes over that month: the date shown is in the month after
    it, at the day carried over (from January 31st to March 3rd, or 2nd in a
    leap year). *)
Theorem changeMonth_passes_over_a_shorter_month {num : Type}
  (s : AppState num) :
  valid (currentDate s) ->
  let y1 := fst (nextMonth (getFullYear (currentDate s))
                   (getMonth (currentDate s))) in
  let m1 := snd (nextMonth (getFullYear (currentDate s))
                   (getMonth (currentDate s))) in
  daysInMonth y1 m1 < getDate (currentDate s) ->
  (getFullYear (currentDate (changeMonth 1 s)),
   getMonth (currentDate (changeMonth 1 s))) = nextMonth y1 m1
  /\ getDate (currentDate (changeMonth 1 s))
     = getDate (currentDate s) - daysInMonth y1 m1
  /\ isSameMonth (currentDate (changeMonth 1 s)) (mkDate y1 m1 1 0) = false.
Proof.
  intros [Hm Hd] y1 m1 Hov. unfold getFullYear, getMonth, getDate in *.
  pose proof (daysInMonth_bounds (year (currentDate s)) (month (currentDate s))).
  assert (Hfwd : currentDate (changeMonth 1 s)
                 = mkDate (fst (nextMonth y1 m1)) (snd (nextMonth y1 m1))
                     (day (currentDate s) - daysInMonth y1 m1)
                     (msOfDay (currentDate s))).
  { unfold changeMonth, newDate, getMonth. simpl.
    apply setMonth_next_overflow; [assumption | subst y1 m1; lia]. }
  rewrite Hfwd. simpl.
  split; [now destruct (nextMonth y1 m1)|]. split; [reflexivity|].
  unfold isSameMonth, newDate, getMonth, getFullYear. simpl.
  destruct (Z.eqb_spec (snd (nextMonth y1 m1)) m1) as [E|_]; [|reflexivity].
  now apply nextMonth_other in E.
Qed.

Lemma changeMonth_passes_over_a_shorter_month_witness :
  let s := stateOf sampleLedger Form.blank (mkDate 2025 0 31 3600000) in
  (getFullYear (currentDate (changeMonth 1 s)),
   getMonth (currentDate (changeMonth 1 s))) = (2025, 2)
  /\ getDate (currentDate (changeMonth 1 s)) = 3
  /\ isSameMonth (currentDate (changeMonth 1 s)) (mkDate 2025 1 1 0) = false.
Proof.
  apply (changeMonth_passes_over_a_shorter_month
           (stateOf sampleLedger Form.blank (mkDate 2025 0 31 3600000)));
    vm_compute; intuition discriminate.
Defined.

Lemma newDateYMD_first (y m : Z) :
  validMonth m ->
  newDateYMD y m 1
  = mkDate (if (0 <=? y) && (y <=? 99) then 1900 + y else y) m 1 0.
Proof.
  unfold validMonth, newDateYMD. intros Hm.
  rewrite Z.div_small, Z.mod_small, Z.add_0_r by lia.
  pose proof (daysInMonth_bounds
                (if (0 <=? y) && (y <=? 99) then 1900 + y else y) m).
  now rewrite carryDay_within by lia.
Qed.

(** X3.  Choosing a month in the picker shows the first day of that month
    of the picker's year, a year from 0 to 99 being read as 1900 plus that
    year: the view then holds exactly the transactions of the ledger whose
    date is in that month and year; the picker is closed, the ledger and the
    registry are untouched. *)
Theorem selectMonthYear_shows_the_chosen_month {num : Type}
  (monthIndex : Z) (s : AppState num) (p : Picker) :
  0 <= monthIndex <= 11 ->
  let s' := fst (selectMonthYear monthIndex s p) in
  let yr := if (0 <=? pickerYear p) && (pickerYear p <=? 99)
            then 1900 + pickerYear p else pickerYear p in
  currentDate s' = mkDate yr monthIndex 1 0
  /\ valid (currentDate s')
  /\ (forall t : Tx.t num,
        In t (getFilteredTransactions s') <->
        In t (transactions s)
        /\ getMonth (newDate (Tx.dateISO t)) = monthIndex
        /\ getFullYear (newDate (Tx.dateISO t)) = yr)
  /\ pickerVisible (snd (selectMonthYear monthIndex s p)) = false
  /\ transactions s' = transactions s
  /\ categories s' = categories s.
Proof.
  intros Hm s' yr. subst s'. unfold selectMonthYear. simpl.
  rewrite (newDateYMD_first (pickerYear p) monthIndex Hm). fold yr.
  split; [reflexivity|].
  split.
  { unfold valid. simpl. pose proof (daysInMonth_bounds yr monthIndex).
    split; [exact Hm | lia]. }
  split; [|auto].
  intros t. unfold getFilteredTransactions. rewrite filter_In. simpl.
  unfold isSameMonth, newDate, getMonth, getFullYear. simpl.
  now rewrite andb_true_iff, !Z.eqb_eq.
Qed.

Lemma selectMonthYear_shows_the_chosen_month_witness :
  let s := stateOf sampleLedger Form.blank (mkDate 2024 7 9 0) in
  let s' := fst (selectMonthYear 2 s (mkPicker true 2025)) in
  currentDate s' = mkDate 2025 2 1 0
  /\ valid (currentDate s')
  /\ (forall t : Tx.t float,
        In t (getFilteredTransactions s') <->
        In t (transactions s)
        /\ getMonth (newDate (Tx.dateISO t)) = 2
        /\ getFullYear (newDate (Tx.dateISO t)) = 2025)
  /\ pickerVisible (snd (selectMonthYear 2 s (mkPicker true 2025))) = false
  /\ transactions s' = transactions s
  /\ categories s' = categories s.
Proof.
  apply (selectMonthYear_shows_the_chosen_month 2
           (stateOf sampleLedger Form.blank (mkDate 2024 7 9 0))
           (mkPicker true 2025)).
  lia.
Defined.

(** X4.  Opening the picker and choosing the month on display again leaves
    the view as it was (for a year outside 0 .. 99). *)
Theorem picking_the_month_on_display_keeps_the_view {num : Type}
  (s : AppState num) (p : Picker) :
  validMonth (getMonth (currentDate s)) ->
  getFullYear (currentDate s) < 0 \/ 99 < getFullYear (currentDate s) ->
  getFilteredTransactions
    (fst (selectMonthYear (getMonth (currentDate s)) s (openPicker s p)))
  = getFilteredTransactions s.
Proof.
  intros Hm Hy. unfold selectMonthYear, openPicker. simpl.
  rewrite (newDateYMD_first _ _ Hm).
  replace ((0 <=? getFullYear (currentDate s))
           && (getFullYear (currentDate s) <=? 99)) with false.
  - reflexivity.
  - symmetry. apply andb_false_iff.
    destruct Hy; [left; apply Z.leb_gt | right; apply Z.leb_gt]; lia.
Qed.

Lemma picking_the_month_on_display_keeps_the_view_witness :
  let s := stateOf sampleLedger Form.blank (march2025 15) in
  getFilteredTransactions
    (fst (selectMonthYear (getMonth (currentDate s)) s
            (openPicker s (mkPicker false 1999))))
  = getFilteredTransactions s.
Proof.
  apply (picking_the_month_on_display_keeps_the_view
           (stateOf sampleLedger Form.blank (march2025 15))
           (mkPicker false 1999)).
  - unfold validMonth. simpl. lia.
  - right. simpl. lia.
Defined.

(** X5.  In a month that [isFutureMonth] does not report as future (the
    months in which the "+" button is shown), the date given to a new
    transaction is today or a day before today, by the calendar (for a
    clock past the year 99). *)
Theorem no_transaction_is_dated_after_today {num : Type} (host : Host num)
  (s : AppState num) :
  Form.amount (newTransaction s) <> "" ->
  Form.category (newTransaction s) <> "" ->
  valid (now host) -> 99 < getFullYear (now host) ->
  validMonth (getMonth (currentDate s)) ->
  isFutureMonth (now host) (currentDate s) = false ->
  exists tx,
    transactions (snd (handleAddTransaction host s)) = tx :: transactions s
    /\ let d := newDate (Tx.dateISO tx) in
       getFullYear d < getFullYear (now host)
       \/ (getFullYear d = getFullYear (now host)
           /\ (getMonth d < getMonth (now host)
               \/ (getMonth d = getMonth (now host)
                   /\ getDate d = getDate (now host)))).
Proof.
  intros Ha Hc [Hnm Hnd] Hny Hm Hfut.
  pose proof (daysInMonth_bounds (year (now host)) (month (now host))) as Hb.
  assert (Hn : 1 <= getDate (now host) <= 31) by (unfold getDate; lia).
  destruct (handleAddTransaction_accepted host s Ha Hc)
    as (d & Hd & _ & Htx & _).
  rewrite (rollover_clamps (currentDate s) (getDate (now host)) Hm Hn) in Hd.
  eexists. split; [exact Htx|]. subst d.
  unfold newDate, toISOString, getFullYear, getMonth, getDate in *. simpl.
  unfold isFutureMonth in Hfut.
  rewrite !newDateYMD_first in Hfut by assumption.
  unfold dateGtb, getFullYear, getMonth in Hfut. simpl in Hfut.
  replace ((0 <=? year (now host)) && (year (now host) <=? 99)) with false
    in Hfut by (symmetry; apply andb_false_iff; right; apply Z.leb_gt; lia).
  apply orb_false_iff in Hfut. destruct Hfut as [Hy Hrest].
  apply Z.ltb_ge in Hy.
  assert (Hle : year (currentDate s) <= year (now host)).
  { destruct ((0 <=? year (currentDate s)) && (year (currentDate s) <=? 99))
      eqn:E; [|assumption].
    apply andb_true_iff in E. destruct E as [_ E]. apply Z.leb_le in E. lia. }
  destruct (Z.eq_dec (year (currentDate s)) (year (now host))) as [Heq|Hne];
    [|left; lia].
  right. split; [assumption|].
  replace ((0 <=? year (currentDate s)) && (year (currentDate s) <=? 99))
    with false in Hrest
    by (symmetry; apply andb_false_iff; right; apply Z.leb_gt; lia).
  rewrite Heq, Z.eqb_refl in Hrest. simpl in Hrest.
  apply orb_false_iff in Hrest. destruct Hrest as [Hmm _].
  apply Z.ltb_ge in Hmm.
  destruct (Z.eq_dec (month (currentDate s)) (month (now host))) as [Hme|Hmne];
    [|left; lia].
  right. split; [assumption|]. rewrite Heq, Hme. apply Z.min_l. lia.
Qed.

Lemma no_transaction_is_dated_after_today_witness :
  let s := addState sampleLedger "12.50" "Food" (mkDate 2025 1 1 0) in
  let host := hostAt (mkDate 2025 2 31 43200000) 1741000000999 in
  exists tx,
    transactions (snd (handleAddTransaction host s)) = tx :: transactions s
    /\ let d := newDate (Tx.dateISO tx) in
       getFullYear d < getFullYear (now host)
       \/ (getFullYear d = getFullYear (now host)
           /\ (getMonth d < getMonth (now host)
               \/ (getMonth d = getMonth (now host)
                   /\ getDate d = getDate (now host)))).
Proof.
  apply (no_transaction_is_dated_after_today
           (hostAt (mkDate 2025 2 31 43200000) 1741000000999)
           (addState sampleLedger "12.50" "Food" (mkDate 2025 1 1 0)));
    try discriminate; try reflexivity;
    vm_compute; intuition discriminate.
Defined.

(** ** Removing a transaction *)

Lemma setTransactions_same {num : Type} (s : AppState num) :
  setTransactions (transactions s) s = s.
Proof. now destruct s. Qed.

Lemma filter_all {A : Type} (p : A -> bool) (l : list A) :
  (forall x, In x l -> p x = true) -> filter p l = l.
Proof.
  induction l as [|x l IH]; intros H; simpl; [reflexivity|].
  rewrite (H x) by (simpl; auto). f_equal. apply IH.
  intros y Hy. apply H. simpl; auto.
Qed.

Lemma remove_the_one_with {A : Type} (key : A -> string) (k : string)
  (l : list A) :
  NoDup (map key l) -> In k (map key l) ->
  S (List.length (filter (fun x => negb (key x =? k)%string) l))
  = List.length l.
Proof.
  induction l as [|x l IH]; simpl; intros Hnd Hin; [contradiction|].
  apply NoDup_cons_iff in Hnd. destruct Hnd as [Hx Hnd].
  destruct (String.eqb_spec (key x) k) as [E|NE]; simpl.
  - f_equal. subst k. rewrite filter_all; [reflexivity|].
    intros y Hy. apply negb_true_iff, String.eqb_neq. intros Heq.
    apply Hx. rewrite <- Heq. now apply in_map.
  - f_equal. apply IH; [assumption|]. destruct Hin; [contradiction | assumption].
Qed.

(** X6.  With pairwise distinct ids in the ledger, deleting a transaction
    by an id of the ledger removes one record, the one with that id: the
    ledger is shorter by one, the id is gone, the other records stay, in
    order, and the registry is untouched. *)
Theorem confirmDelete_removes_the_record {num : Type} (id : string)
  (s : AppState num) :
  NoDup (map Tx.id (transactions s)) ->
  In id (map Tx.id (transactions s)) ->
  let s' := snd (confirmDelete id s) in
  S (List.length (transactions s')) = List.length (transactions s)
  /\ ~ In id (map Tx.id (transactions s'))
  /\ (forall t : Tx.t num,
        In t (transactions s') <-> In t (transactions s) /\ Tx.id t <> id)
  /\ NoDup (map Tx.id (transactions s'))
  /\ categories s' = categories s.
Proof.
  intros Hnd Hin s'. subst s'. unfold confirmDelete. simpl.
  split; [now apply remove_the_one_with|].
  assert (Hiff : forall t : Tx.t num,
             In t (filter (fun t => negb (Tx.id t =? id)%string) (transactions s))
             <-> In t (transactions s) /\ Tx.id t <> id).
  { intros t. rewrite filter_In, negb_true_iff, String.eqb_neq. reflexivity. }
  split; [|split; [exact Hiff | split; [|reflexivity]]].
  - intros H. apply in_map_iff in H. destruct H as (t & Hid & Ht).
    apply Hiff in Ht. tauto.
  - clear Hin Hiff. induction (transactions s) as [|t l IH]; simpl;
      [constructor|].
    simpl in Hnd. apply NoDup_cons_iff in Hnd. destruct Hnd as [Ht Hnd].
    destruct (negb (Tx.id t =? id)%string); simpl; [|now apply IH].
    constructor; [|now apply IH].
    intros H. apply Ht. apply in_map_iff in H. destruct H as (u & Hu & Hin).
    apply filter_In in Hin. apply in_map_iff. exists u. tauto.
Qed.

Lemma confirmDelete_removes_the_record_witness :
  let s := stateOf sampleLedger Form.blank (march2025 1) in
  S (List.length (transactions (snd (confirmDelete "1741000000003" s))))
  = List.length (transactions s).
Proof.
  assert (Hnd : NoDup (map Tx.id sampleLedger)).
  { simpl. repeat constructor; simpl; intuition discriminate. }
  assert (Hin : In "1741000000003" (map Tx.id sampleLedger))
    by (simpl; auto).
  exact (proj1 (confirmDelete_removes_the_record "1741000000003"
                  (stateOf sampleLedger Form.blank (march2025 1)) Hnd Hin)).
Defined.

(** X7.  Deleting by an id that no transaction has changes nothing in the
    state. *)
Theorem confirmDelete_of_an_unknown_id_is_a_no_op {num : Type} (id : string)
  (s : AppState num) :
  ~ In id (map Tx.id (transactions s)) ->
  confirmDelete id s = (None, s).
Proof.
  intros Hnin. unfold confirmDelete. f_equal.
  rewrite filter_all; [apply setTransactions_same|].
  intros t Ht. apply negb_true_iff, String.eqb_neq. intros Heq.
  apply Hnin. rewrite <- Heq. now apply in_map.
Qed.

Lemma confirmDelete_of_an_unknown_id_is_a_no_op_witness :
  confirmDelete "42" (stateOf sampleLedger Form.blank (march2025 1))
  = (None, stateOf sampleLedger Form.blank (march2025 1)).
Proof.
  apply (confirmDelete_of_an_unknown_id_is_a_no_op "42"
           (stateOf sampleLedger Form.blank (march2025 1))).
  simpl. intuition discriminate.
Defined.

(** X8.  A transaction saved at a clock reading that no record of the
    ledger carries can be taken back: deleting it by its id gives the
    ledger of before the save. *)
Theorem save_then_delete_restores_the_ledger {num : Type} (host : Host num)
  (s : AppState num) :
  Form.amount (newTransaction s) <> "" ->
  Form.category (newTransaction s) <> "" ->
  ~ In (toString (dateNow host)) (map Tx.id (transactions s)) ->
  transactions
    (snd (confirmDelete (toString (dateNow host))
            (snd (handleAddTransaction host s))))
  = transactions s.
Proof.
  intros Ha Hc Hfresh.
  destruct (handleAddTransaction_accepted host s Ha Hc)
    as (d & _ & _ & Htx & _).
  unfold confirmDelete. simpl. rewrite Htx. simpl.
  rewrite String.eqb_refl. simpl.
  apply filter_all. intros t Ht. apply negb_true_iff, String.eqb_neq.
  intros Heq. apply Hfresh. rewrite <- Heq. now apply in_map.
Qed.

Lemma save_then_delete_restores_the_ledger_witness :
  let s := addState sampleLedger "12.50" "Food" (march2025 1) in
  let host := hostAt (march2025 15) 1741000000999 in
  transactions
    (snd (confirmDelete (toString (dateNow host))
            (snd (handleAddTransaction host s))))
  = transactions s.
Proof.
  apply (save_then_delete_restores_the_ledger
           (hostAt (march2025 15) 1741000000999)
           (addState sampleLedger "12.50" "Food" (march2025 1)));
    try discriminate.
  simpl. intuition discriminate.
Defined.

(** ** Saving a transaction *)

(** X9.  A save that went through empties the form: pressing "Save
    Transaction" again, at whatever moment, is refused with the "Missing
    Info" alert and adds nothing. *)
Theorem second_save_is_refused {num : Type} (host host' : Host num)
  (s : AppState num) :
  Form.amount (newTransaction s) <> "" ->
  Form.category (newTransaction s) <> "" ->
  let s' := snd (handleAddTransaction host s) in
  newTransaction s' = Form.blank
  /\ modalVisible s' = false
  /\ handleAddTransaction host' s'
     = (Some (mkAlert "Missing Info"
                "Please enter an amount and select a category."), s').
Proof.
  intros Ha Hc s'.
  assert (Hform : newTransaction s' = Form.blank /\ modalVisible s' = false).
  { subst s'. unfold handleAddTransaction.
    apply String.eqb_neq in Ha, Hc. rewrite Ha, Hc. simpl. auto. }
  destruct Hform as [Hform Hvis]. split; [assumption|]. split; [assumption|].
  apply handleAddTransaction_refused. left. now rewrite Hform.
Qed.

Lemma second_save_is_refused_witness :
  let s := addState sampleLedger "12.50" "Food" (march2025 1) in
  let host := hostAt (march2025 15) 1741000000999 in
  let s' := snd (handleAddTransaction host s) in
  newTransaction s' = Form.blank
  /\ modalVisible s' = false
  /\ handleAddTransaction (hostAt (march2025 15) 1741000001500) s'
     = (Some (mkAlert "Missing Info"
                "Please enter an amount and select a category."), s').
Proof.
  apply (second_save_is_refused
           (hostAt (march2025 15) 1741000000999)
           (hostAt (march2025 15) 1741000001500)
           (addState sampleLedger "12.50" "Food" (march2025 1)));
    discriminate.
Defined.

(** X10.  A transaction saved is on display at once: it is the first of
    the filtered set of the month on display, in front of the transactions
    that were there. *)
Theorem saved_transaction_heads_the_view {num : Type} (host : Host num)
  (s : AppState num) :
  Form.amount (newTransaction s) <> "" ->
  Form.category (newTransaction s) <> "" ->
  validMonth (getMonth (currentDate s)) ->
  1 <= getDate (now host) <= 31 ->
  exists tx,
    transactions (snd (handleAddTransaction host s)) = tx :: transactions s
    /\ getFilteredTransactions (snd (handleAddTransaction host s))
       = tx :: getFilteredTransactions s.
Proof.
  intros Ha Hc Hm Hn.
  destruct (handleAddTransaction_accepted host s Ha Hc)
    as (d & Hd & _ & Htx & _).
  rewrite (rollover_clamps (currentDate s) (getDate (now host)) Hm Hn) in Hd.
  eexists. split; [exact Htx|].
  assert (Hcur : currentDate (snd (handleAddTransaction host s)) = currentDate s).
  { unfold handleAddTransaction.
    apply String.eqb_neq in Ha, Hc. rewrite Ha, Hc. reflexivity. }
  unfold getFilteredTransactions. rewrite Hcur, Htx. simpl.
  subst d. unfold isSameMonth at 1.
  unfold newDate, toISOString, getMonth, getFullYear. simpl.
  now rewrite !Z.eqb_refl.
Qed.

Lemma saved_transaction_heads_the_view_witness :
  let s := addState sampleLedger "12.50" "Food" (march2025 1) in
  let host := hostAt (mkDate 2025 4 31 0) 1741000000999 in
  exists tx,
    transactions (snd (handleAddTransaction host s)) = tx :: transactions s
    /\ getFilteredTransactions (snd (handleAddTransaction host s))
       = tx :: getFilteredTransactions s.
Proof.
  apply (saved_transaction_heads_the_view
           (hostAt (mkDate 2025 4 31 0) 1741000000999)
           (addState sampleLedger "12.50" "Food" (march2025 1)));
    try discriminate; unfold validMonth; simpl; lia.
Defined.

(** ** Deleting a category: what it leaves as it was *)

Lemma filter_map_swap {A B : Type} (f : A -> B) (p : B -> bool) (l : list A) :
  filter p (map f l) = map f (filter (fun x => p (f x)) l).
Proof.
  induction l as [|x l IH]; simpl; [reflexivity|].
  destruct (p (f x)); simpl; now rewrite IH.
Qed.

(** A rewrite of the records that keeps their types and amounts keeps the
    sum of a type. *)
Lemma sumOfType_map {num : Type} {numOps : Number num}
  (f : Tx.t num -> Tx.t num) (ty : TxType.t) (l : list (Tx.t num)) :
  (forall t, Tx.type (f t) = Tx.type t /\ Tx.amount (f t) = Tx.amount t) ->
  sumOfType ty (map f l) = sumOfType ty l.
Proof.
  intros Hf. unfold sumOfType, toNumber. generalize (@num_zero num numOps).
  induction l as [|x l IH]; intros a; simpl; [reflexivity|].
  destruct (Hf x) as [-> Ha].
  destruct (TxType.eqb (Tx.type x) ty); simpl; [rewrite Ha|]; apply IH.
Qed.

Lemma filter_comm {A : Type} (p q : A -> bool) (l : list A) :
  filter p (filter q l) = filter q (filter p l).
Proof.
  induction l as [|x l IH]; simpl; [reflexivity|].
  destruct (p x) eqn:P, (q x) eqn:Q; simpl; rewrite ?P, ?Q; now rewrite IH.
Qed.

(** X11.  Reassigning a category changes no total: for the month on
    display, whichever it is, the income, the expense and the balance after
    the reassignment are those of before, as computed on the numbers of the
    program; the ids, the dates and the amounts of the ledger are
    unchanged. *)
Theorem reassignment_keeps_the_totals {num : Type} {numOps : Number num}
  (C : string) (T : TxType.t) (s : AppState num) :
  let s' := snd (executeCategoryDeletion C T "reassign" s) in
  getTotals (getFilteredTransactions s') = getTotals (getFilteredTransactions s)
  /\ map Tx.id (transactions s') = map Tx.id (transactions s)
  /\ map Tx.dateISO (transactions s') = map Tx.dateISO (transactions s)
  /\ map Tx.amount (transactions s') = map Tx.amount (transactions s)
  /\ map Tx.type (transactions s') = map Tx.type (transactions s).
Proof.
  intros s'. subst s'.
  destruct (String.eqb_spec (reassignCategory s) "") as [He|Hne].
  { rewrite (executeCategoryDeletion_refused C T s He). simpl. auto. }
  destruct (executeCategoryDeletion_reassign C T s Hne) as (_ & Ht & _).
  assert (Hcur : currentDate (snd (executeCategoryDeletion C T "reassign" s))
                 = currentDate s).
  { unfold executeCategoryDeletion. simpl.
    apply String.eqb_neq in Hne. rewrite Hne.
    destruct (Form.category (newTransaction s) =? C)%string; reflexivity. }
  set (f := fun t : Tx.t num =>
              if dependsOn C T t
              then Tx.withCategory t (reassignCategory s) else t) in *.
  assert (Hid : forall t, Tx.id (f t) = Tx.id t
                          /\ Tx.dateISO (f t) = Tx.dateISO t
                          /\ Tx.amount (f t) = Tx.amount t
                          /\ Tx.type (f t) = Tx.type t).
  { intros t. unfold f. destruct (dependsOn C T t); simpl; auto. }
  split.
  - unfold getFilteredTransactions. rewrite Hcur, Ht.
    rewrite filter_map_swap.
    erewrite filter_ext
      with (g := fun t => isSameMonth (Tx.dateISO t) (currentDate s))
      by (intros t; now rewrite (proj1 (proj2 (Hid t)))).
    unfold getTotals.
    rewrite !(sumOfType_map f) by (intros t; split; apply Hid).
    reflexivity.
  - rewrite Ht, !map_map.
    repeat split; apply map_ext; intros t; apply Hid.
Qed.

(** X12.  Deleting a category of one type with its transactions leaves the
    total of the other type as it was, for the month on display whichever it
    is: deleting an Expense category changes no income. *)
Theorem deletion_keeps_the_total_of_the_other_type {num : Type}
  {numOps : Number num} (C : string) (T T' : TxType.t) (s : AppState num) :
  T' <> T ->
  let s' := snd (executeCategoryDeletion C T "delete" s) in
  sumOfType T' (getFilteredTransactions s')
  = sumOfType T' (getFilteredTransactions s).
Proof.
  intros Hne s'. subst s'.
  destruct (executeCategoryDeletion_delete C T s) as (_ & Ht & _).
  assert (Hcur : currentDate (snd (executeCategoryDeletion C T "delete" s))
                 = currentDate s).
  { unfold executeCategoryDeletion. simpl.
    destruct (Form.category (newTransaction s) =? C)%string; reflexivity. }
  unfold sumOfType, getFilteredTransactions. rewrite Hcur, Ht. f_equal.
  rewrite (filter_comm
             (fun t => isSameMonth (Tx.dateISO t) (currentDate s))
             (fun t => negb (dependsOn C T t))).
  apply filter_filter_implied.
  intros t Hty. apply TxType_eqb_eq in Hty.
  rewrite dependsOn_other_type; [reflexivity | congruence].
Qed.

Lemma deletion_keeps_the_total_of_the_other_type_witness :
  let s := deletionState "" in
  let s' := snd (executeCategoryDeletion "Food" TxType.Expense "delete" s) in
  sumOfType TxType.Income (getFilteredTransactions s')
  = sumOfType TxType.Income (getFilteredTransactions s).
Proof.
  apply (deletion_keeps_the_total_of_the_other_type
           "Food" TxType.Expense TxType.Income (deletionState "")).
  discriminate.
Defined.

(** X13.  After the deletion of the category [C] of type [T], in "delete"
    mode, or in "reassign" mode with a target chosen other than [C], no
    transaction of the ledger has the type [T] and the category [C]. *)
Theorem deleted_category_has_no_transaction_left {num : Type}
  (C : string) (T : TxType.t) (s : AppState num) :
  (forall t : Tx.t num,
     In t (transactions (snd (executeCategoryDeletion C T "delete" s))) ->
     ~ (Tx.type t = T /\ Tx.category t = C))
  /\ (reassignCategory s <> "" -> reassignCategory s <> C ->
      forall t : Tx.t num,
        In t (transactions (snd (executeCategoryDeletion C T "reassign" s))) ->
        ~ (Tx.type t = T /\ Tx.category t = C)).
Proof.
  split.
  - destruct (executeCategoryDeletion_delete C T s) as (_ & Ht & _).
    rewrite Ht. intros t Hin [Hty Hc]. apply filter_In in Hin.
    destruct Hin as [_ Hd]. apply negb_true_iff in Hd.
    assert (dependsOn C T t = true) by now apply dependsOn_true.
    congruence.
  - intros Hne HneC.
    destruct (executeCategoryDeletion_reassign C T s Hne) as (_ & Ht & _).
    rewrite Ht. intros t' Hin [Hty Hc].
    apply in_map_iff in Hin. destruct Hin as (t & <- & _).
    destruct (dependsOn C T t) eqn:D.
    + simpl in Hc. contradiction.
    + assert (dependsOn C T t = true) by now apply dependsOn_true.
      congruence.
Qed.

Lemma deleted_category_has_no_transaction_left_witness :
  reassignCategory (deletionState "Bills") <> ""
  /\ reassignCategory (deletionState "Bills") <> "Food"
  /\ forall t : Tx.t float,
       In t (transactions
               (snd (executeCategoryDeletion "Food" TxType.Expense "reassign"
                       (deletionState "Bills")))) ->
       ~ (Tx.type t = TxType.Expense /\ Tx.category t = "Food").
Proof.
  assert (H1 : reassignCategory (deletionState "Bills") <> "") by discriminate.
  assert (H2 : reassignCategory (deletionState "Bills") <> "Food")
    by discriminate.
  split; [exact H1|]. split; [exact H2|].
  exact (proj2 (deleted_category_has_no_transaction_left
                  "Food" TxType.Expense (deletionState "Bills")) H1 H2).
Defined.

(** X14.  The buttons of the conflict modal keep the ledger within the
    registry: when every transaction has a category of the registry list of
    its type, this is still so after "Delete All Transactions", and after
    "Reassign & Delete Category" with a target that is one of the chips of
    the modal. *)
Theorem conflict_buttons_keep_the_ledger_in_the_registry {num : Type}
  (c : CategoryToDelete) (s : AppState num) :
  categoryToDelete s = Some c ->
  ledgerIntegrity s ->
  ledgerIntegrity
    (snd (executeCategoryDeletion (ctdName c) (ctdType c) "delete" s))
  /\ (In (reassignCategory s) (reassignOptions s) ->
      ledgerIntegrity
        (snd (executeCategoryDeletion (ctdName c) (ctdType c) "reassign" s))).
Proof.
  intros Hc Hint. unfold ledgerIntegrity in *.
  assert (Hkeep : forall t : Tx.t num,
             In t (transactions s) ->
             dependsOn (ctdName c) (ctdType c) t = false ->
             In (Tx.category t)
               (Categories.get
                  (Categories.set (categories s) (ctdType c)
                     (filter (fun x => negb (x =? ctdName c)%string)
                        (Categories.get (categories s) (ctdType c))))
                  (Tx.type t))).
  { intros t Hin Hd.
    destruct (TxType.eqb (Tx.type t) (ctdType c)) eqn:E.
    - apply TxType_eqb_eq in E. rewrite E, Categories_get_set_same.
      apply filter_In. split; [rewrite <- E; now apply Hint|].
      apply negb_true_iff, String.eqb_neq. intros Heq.
      assert (dependsOn (ctdName c) (ctdType c) t = true)
        by now apply dependsOn_true.
      congruence.
    - apply TxType_eqb_neq in E.
      rewrite Categories_get_set_other by assumption. now apply Hint. }
  split.
  - destruct (executeCategoryDeletion_delete (ctdName c) (ctdType c) s)
      as (_ & Ht & Hcat).
    rewrite Ht, Hcat. intros t Hin. apply filter_In in Hin.
    destruct Hin as [Hin Hd]. apply negb_true_iff in Hd. now apply Hkeep.
  - unfold reassignOptions. rewrite Hc. intros Htarget.
    apply filter_In in Htarget. destruct Htarget as [Hreg Hne].
    destruct (String.eqb_spec (reassignCategory s) "") as [He|Hne'].
    + rewrite (executeCategoryDeletion_refused _ _ s He). simpl. exact Hint.
    + destruct (executeCategoryDeletion_reassign (ctdName c) (ctdType c) s Hne')
        as (_ & Ht & Hcat).
      rewrite Ht, Hcat. intros t' Hin.
      apply in_map_iff in Hin. destruct Hin as (t & <- & Hin).
      destruct (dependsOn (ctdName c) (ctdType c) t) eqn:D.
      * apply dependsOn_true in D. destruct D as [_ Dty]. simpl.
        rewrite Dty, Categories_get_set_same.
        apply filter_In. split; assumption.
      * now apply Hkeep.
Qed.

Lemma conflict_buttons_keep_the_ledger_in_the_registry_witness :
  let s := conflictOn registeredLedger "Food" TxType.Expense "Bills" in
  ledgerIntegrity s
  /\ In (reassignCategory s) (reassignOptions s)
  /\ ledgerIntegrity
       (snd (executeCategoryDeletion "Food" TxType.Expense "reassign" s)).
Proof.
  assert (Hint : ledgerIntegrity
                   (conflictOn registeredLedger "Food" TxType.Expense "Bills")).
  { intros t [<-|[<-|[<-|[<-|[]]]]]; simpl; auto 10. }
  assert (Hin : In (reassignCategory
                      (conflictOn registeredLedger "Food" TxType.Expense "Bills"))
                  (reassignOptions
                     (conflictOn registeredLedger "Food" TxType.Expense "Bills")))
    by (simpl; auto).
  split; [exact Hint|]. split; [exact Hin|].
  exact (proj2 (conflict_buttons_keep_the_ledger_in_the_registry
                  (mkCategoryToDelete "Food" TxType.Expense)
                  (conflictOn registeredLedger "Food" TxType.Expense "Bills")
                  eq_refl Hint) Hin).
Defined.

(** X15.  A long press on a category that has transactions opens the
    conflict modal on it and changes neither the ledger nor the registry;
    "Cancel", also after a target was picked, leaves the state of before
    the long press with the three fields of the deletion ([deleteModalVisible],
    [categoryToDelete], [reassignCategory]) reset to [false], [null] and
    the empty string.  This is the state of before the long press itself
    when the three fields had these values then. *)
Theorem initiation_then_cancel_restores_the_state {num : Type}
  (C target : string) (s : AppState num) :
  existsb (dependsOn C (Form.type (newTransaction s))) (transactions s) = true ->
  exists s1,
    handleDeleteCategoryInitiation C s = OpenModal s1
    /\ categoryToDelete s1
       = Some (mkCategoryToDelete C (Form.type (newTransaction s)))
    /\ deleteModalVisible s1 = true
    /\ transactions s1 = transactions s
    /\ categories s1 = categories s
    /\ cancelDeletion s1 = cancelDeletion s
    /\ cancelDeletion (setReassignCategory target s1) = cancelDeletion s
    /\ (deleteModalVisible s = false -> categoryToDelete s = None ->
        reassignCategory s = "" -> cancelDeletion s = s).
Proof.
  intros Hdep. unfold handleDeleteCategoryInitiation.
  change (existsb _ (transactions s))
    with (existsb (dependsOn C (Form.type (newTransaction s))) (transactions s)).
  rewrite Hdep. eexists. split; [reflexivity|].
  destruct s. simpl in *. repeat split. intros. now subst.
Qed.

Lemma initiation_then_cancel_restores_the_state_witness :
  let s := addState sampleLedger "" "" (march2025 1) in
  exists s1,
    handleDeleteCategoryInitiation "Food" s = OpenModal s1
    /\ categoryToDelete s1 = Some (mkCategoryToDelete "Food" TxType.Expense)
    /\ deleteModalVisible s1 = true
    /\ transactions s1 = transactions s
    /\ categories s1 = categories s
    /\ cancelDeletion s1 = cancelDeletion s
    /\ cancelDeletion (setReassignCategory "Bills" s1) = cancelDeletion s
    /\ (deleteModalVisible s = false -> categoryToDelete s = None ->
        reassignCategory s = "" -> cancelDeletion s = s).
Proof.
  apply (initiation_then_cancel_restores_the_state "Food" "Bills"
           (addState sampleLedger "" "" (march2025 1))).
  reflexivity.
Defined.

(** The fields need not have these values: the back button
    ([onRequestClose]) hides the conflict modal and leaves the category and
    the target pending; a long press and "Cancel" then clear them. *)
Example cancel_after_the_back_button :
  let s := setDeleteModalVisible false
             (conflictOn registeredLedger "Food" TxType.Expense "Bills") in
  step (@BackFromDeletion float)
    (conflictOn registeredLedger "Food" TxType.Expense "Bills") = Next s
  /\ categoryToDelete s = Some (mkCategoryToDelete "Food" TxType.Expense)
  /\ reassignCategory s = "Bills"
  /\ exists s1,
       handleDeleteCategoryInitiation "Food" s = OpenModal s1
       /\ categoryToDelete (cancelDeletion s1) = None
       /\ reassignCategory (cancelDeletion s1) = ""
       /\ cancelDeletion s1 <> s.
Proof.
  split; [reflexivity|]. split; [reflexivity|]. split; [reflexivity|].
  eexists. split; [reflexivity|]. split; [reflexivity|].
  split; [reflexivity|]. discriminate.
Qed.

(** ** What holds in every state the user can reach *)

Lemma trimStart_fixed (s : string) :
  (forall c, firstChar s = Some c -> isWhiteSpace c = false) ->
  trimStart s = s.
Proof.
  destruct s as [|c r]; simpl; [reflexivity|].
  intros H. now rewrite (H c eq_refl).
Qed.

Lemma trimEnd_fixed (s : string) :
  (forall c, lastChar s = Some c -> isWhiteSpace c = false) ->
  trimEnd s = s.
Proof.
  induction s as [|c r IH]; [reflexivity|].
  intros H. cbn [trimEnd]. destruct r as [|c' r'].
  - simpl. now rewrite (H c eq_refl).
  - rewrite IH by (intros x Hx; now apply H).
    simpl. now rewrite andb_false_r.
Qed.

Lemma trim_idempotent (s : string) : trim (trim s) = trim s.
Proof.
  destruct (trim_spec s) as (_ & _ & _ & _ & _ & Hf & Hl).
  unfold trim at 1. rewrite trimStart_fixed by assumption.
  now apply trimEnd_fixed.
Qed.

Lemma setMonth_valid (d : Date) (m : Z) : valid (setMonth d m).
Proof.
  unfold setMonth, valid.
  assert (Hm : validMonth (m mod 12)).
  { unfold validMonth. pose proof (Z.mod_pos_bound m 12). lia. }
  pose proof (carryDay_valid (S (Z.to_nat (Z.abs (day d))))
                (year d + m / 12) (m mod 12) (day d) Hm) as H.
  destruct (carryDay _ _ _ _) as [[y' m'] d']. simpl. apply H. lia.
Qed.

Lemma wellFormed_initial {num : Type} (today : Date) :
  valid today -> wellFormed (@initialState num today).
Proof.
  intros Hv. unfold wellFormed. simpl.
  split.
  { intros [|]; simpl; repeat constructor; simpl; intuition discriminate. }
  split.
  { intros [|] c Hc; simpl in Hc;
      repeat (destruct Hc as [<- | Hc]; [split; [discriminate | reflexivity]|]);
      contradiction. }
  split; [now left|]. split; [discriminate|]. split; [assumption|].
  intros t [].
Qed.

Section Preservation.

Context {num : Type}.

Local Abbreviation State := (AppState num).

Local Ltac wf_split :=
  refine (conj _ (conj _ (conj _ (conj _ (conj _ _))))).

(** A state with the registry, the form, the conflict modal, the date and
    the ledger of a well-formed state is well formed. *)
Lemma wellFormed_same_core (s s' : State) :
  categories s' = categories s ->
  newTransaction s' = newTransaction s ->
  deleteModalVisible s' = deleteModalVisible s ->
  categoryToDelete s' = categoryToDelete s ->
  currentDate s' = currentDate s ->
  transactions s' = transactions s ->
  wellFormed s -> wellFormed s'.
Proof.
  unfold wellFormed. intros -> -> -> -> -> ->. auto.
Qed.

Lemma wellFormed_handleAddTransaction (host : Host num) (s : State) :
  wellFormed s -> wellFormed (snd (handleAddTransaction host s)).
Proof.
  intros Hwf. unfold handleAddTransaction.
  destruct (String.eqb_spec (Form.amount (newTransaction s)) "") as [|Ha];
    [exact Hwf|].
  destruct (String.eqb_spec (Form.category (newTransaction s)) "") as [|Hc];
    [exact Hwf|].
  destruct Hwf as (Hnd & Hnames & Hform & Hmodal & Hdate & Hled).
  simpl. wf_split; simpl; auto.
  intros t [<- | Ht]; simpl; auto.
Qed.

Lemma wellFormed_handleAddNewCategory (s : State) :
  wellFormed s -> wellFormed (snd (handleAddNewCategory s)).
Proof.
  intros Hwf. unfold handleAddNewCategory.
  destruct (String.eqb_spec (trim (newCategoryName s)) "") as [|Hne];
    [exact Hwf|].
  destruct (includes _ _) eqn:Hinc; [exact Hwf|].
  assert (Hnin : ~ In (trim (newCategoryName s))
                     (Categories.get (categories s)
                        (Form.type (newTransaction s)))).
  { intros H. apply includes_In in H. congruence. }
  destruct Hwf as (Hnd & Hnames & Hform & Hmodal & Hdate & Hled).
  simpl. wf_split; simpl; auto.
  - intros ty. destruct (TxType.eqb ty (Form.type (newTransaction s))) eqn:E.
    + apply TxType_eqb_eq in E. subst ty. rewrite Categories_get_set_same.
      apply NoDup_app; [apply Hnd | repeat constructor; simpl; tauto |].
      intros c Hc [<- | []]. contradiction.
    + apply TxType_eqb_neq in E.
      rewrite Categories_get_set_other by assumption. apply Hnd.
  - intros ty c. destruct (TxType.eqb ty (Form.type (newTransaction s))) eqn:E.
    + apply TxType_eqb_eq in E. subst ty. rewrite Categories_get_set_same.
      intros Hc. apply in_app_or in Hc. destruct Hc as [Hc | [<- | []]].
      * now apply (Hnames (Form.type (newTransaction s))).
      * split; [assumption | apply trim_idempotent].
    + apply TxType_eqb_neq in E.
      rewrite Categories_get_set_other by assumption. apply Hnames.
  - right. rewrite Categories_get_set_same. apply in_or_app. right.
    simpl. auto.
Qed.

Lemma wellFormed_executeCategoryDeletion (C : string) (T : TxType.t)
  (action : string) (s : State) :
  wellFormed s -> wellFormed (snd (executeCategoryDeletion C T action s)).
Proof.
  intros Hwf.
  assert (Hfinish : forall txs : list (Tx.t num),
             (forall t, In t txs -> Tx.category t <> "") ->
             forall form : Form.t,
               form = (if (Form.category (newTransaction s) =? C)%string
                       then Form.withCategory (newTransaction s) ""
                       else newTransaction s) ->
               wellFormed
                 (mkAppState txs
                    (Categories.set (categories s) T
                       (filter (fun c => negb (c =? C)%string)
                          (Categories.get (categories s) T)))
                    (modalVisible s) form (newCategoryName s)
                    (isAddingCategory s) (currentDate s) false None "")).
  { intros txs Htxs form ->.
    destruct Hwf as (Hnd & Hnames & Hform & Hmodal & Hdate & Hled).
    wf_split; simpl; auto; try discriminate.
    - intros ty. destruct (TxType.eqb ty T) eqn:E.
      + apply TxType_eqb_eq in E. subst ty. rewrite Categories_get_set_same.
        apply NoDup_filter, Hnd.
      + apply TxType_eqb_neq in E.
        rewrite Categories_get_set_other by assumption. apply Hnd.
    - intros ty c. destruct (TxType.eqb ty T) eqn:E.
      + apply TxType_eqb_eq in E. subst ty. rewrite Categories_get_set_same.
        intros Hc. apply filter_In in Hc. now apply (Hnames T).
      + apply TxType_eqb_neq in E.
        rewrite Categories_get_set_other by assumption. apply Hnames.
    - destruct (String.eqb_spec (Form.category (newTransaction s)) C)
        as [He|Hne]; simpl; [now left|].
      destruct Hform as [Hf|Hf]; [now left|]. right.
      destruct (TxType.eqb (Form.type (newTransaction s)) T) eqn:E.
      + apply TxType_eqb_eq in E. rewrite E, Categories_get_set_same.
        apply filter_In. split; [now rewrite <- E|].
        now apply negb_true_iff, String.eqb_neq.
      + apply TxType_eqb_neq in E.
        now rewrite Categories_get_set_other by assumption. }
  pose proof Hwf as (_ & _ & _ & _ & _ & Hled).
  unfold executeCategoryDeletion. simpl.
  destruct (action =? "delete")%string.
  - destruct (Form.category (newTransaction s) =? C)%string eqn:E; simpl;
      (apply Hfinish; [simpl | reflexivity]);
      intros t Ht; apply filter_In in Ht; now apply Hled.
  - destruct (action =? "reassign")%string.
    + destruct (String.eqb_spec (reassignCategory s) "") as [|Hne];
        [exact Hwf|].
      destruct (Form.category (newTransaction s) =? C)%string eqn:E; simpl;
        (apply Hfinish; [simpl | reflexivity]);
        intros t' Ht'; apply in_map_iff in Ht';
        destruct Ht' as (t & <- & Ht);
        (destruct (dependsOn C T t); simpl; [assumption | now apply Hled]).
    + destruct (Form.category (newTransaction s) =? C)%string eqn:E; simpl;
        (apply Hfinish; [simpl; assumption | reflexivity]).
Qed.

Lemma wellFormed_confirmDelete (id : string) (s : State) :
  wellFormed s -> wellFormed (snd (confirmDelete id s)).
Proof.
  intros (Hnd & Hnames & Hform & Hmodal & Hdate & Hled).
  unfold confirmDelete. wf_split; simpl; auto.
  intros t Ht. apply filter_In in Ht. now apply Hled.
Qed.

Lemma wellFormed_setCurrentDate (d : Date) (s : State) :
  valid d -> wellFormed s -> wellFormed (setCurrentDate d s).
Proof.
  intros Hd (Hnd & Hnames & Hform & Hmodal & Hdate & Hled).
  wf_split; simpl; auto.
Qed.

(** No event leads out of the well-formed states. *)
Lemma wellFormed_step {numOps : Number num} (e : Event) (s s' : State) :
  wellFormed s -> step e s = Next s' -> wellFormed s'.
Proof.
  intros Hwf Hstep.
  destruct e; simpl in Hstep; unfold whenever in Hstep;
    repeat match type of Hstep with
           | (if ?b then _ else _) = _ => destruct b eqn:?; [|discriminate]
           end;
    try (injection Hstep as <-;
         first [ now apply (wellFormed_same_core s)
               | now apply wellFormed_handleAddNewCategory
               | now apply wellFormed_handleAddTransaction
               | now apply wellFormed_confirmDelete ]).
  - (* PickType *)
    injection Hstep as <-.
    destruct Hwf as (Hnd & Hnames & Hform & Hmodal & Hdate & Hled).
    wf_split; simpl; auto.
  - (* TypeAmount *)
    injection Hstep as <-.
    destruct Hwf as (Hnd & Hnames & Hform & Hmodal & Hdate & Hled).
    wf_split; simpl; auto.
  - (* TypeNote *)
    injection Hstep as <-.
    destruct Hwf as (Hnd & Hnames & Hform & Hmodal & Hdate & Hled).
    wf_split; simpl; auto.
  - (* PickCategory *)
    injection Hstep as <-.
    destruct Hwf as (Hnd & Hnames & Hform & Hmodal & Hdate & Hled).
    wf_split; simpl; auto.
    right. apply includes_In.
    match goal with H : _ && _ && includes _ _ = true |- _ =>
      apply andb_true_iff in H; apply H end.
  - (* LongPressCategory *)
    unfold handleDeleteCategoryInitiation in Hstep.
    destruct (existsb _ (transactions s)); injection Hstep as <-.
    + destruct Hwf as (Hnd & Hnames & Hform & Hmodal & Hdate & Hled).
      wf_split; simpl; auto. discriminate.
    + exact (wellFormed_executeCategoryDeletion cat
               (Form.type (newTransaction s)) "delete" s Hwf).
  - (* PressDeleteAll *)
    destruct (categoryToDelete s) as [c|]; [|discriminate].
    injection Hstep as <-.
    exact (wellFormed_executeCategoryDeletion (ctdName c) (ctdType c)
             "delete" s Hwf).
  - (* PressReassign *)
    destruct (categoryToDelete s) as [c|]; [|discriminate].
    injection Hstep as <-.
    exact (wellFormed_executeCategoryDeletion (ctdName c) (ctdType c)
             "reassign" s Hwf).
  - (* CancelDeletion *)
    injection Hstep as <-.
    destruct Hwf as (Hnd & Hnames & Hform & Hmodal & Hdate & Hled).
    wf_split; simpl; auto. discriminate.
  - (* BackFromDeletion *)
    injection Hstep as <-.
    destruct Hwf as (Hnd & Hnames & Hform & Hmodal & Hdate & Hled).
    wf_split; simpl; auto; discriminate.
  - (* ChangeMonth *)
    injection Hstep as <-. unfold changeMonth.
    apply wellFormed_setCurrentDate; [apply setMonth_valid | assumption].
  - (* SelectMonthYear *)
    injection Hstep as <-. unfold selectMonthYear. simpl.
    assert (Hm : validMonth monthIndex).
    { match goal with H : _ && _ = true |- _ =>
        apply andb_true_iff in H; destruct H as [H1 H2];
        apply Z.leb_le in H1, H2 end.
      unfold validMonth. lia. }
    apply wellFormed_setCurrentDate; [|assumption].
    rewrite newDateYMD_first by assumption.
    unfold valid. simpl. split; [assumption|].
    match goal with |- context [daysInMonth ?y ?m] =>
      pose proof (daysInMonth_bounds y m) end.
    lia.
Qed.

End Preservation.

Lemma reachable_run {num : Type} (today : Date) (events : list (@Event num)) :
  forall s s' : AppState num,
    reachable today s -> run events s = Next s' -> reachable today s'.
Proof.
  induction events as [|e rest IH]; intros s s' Hr Hrun; simpl in Hrun.
  - now injection Hrun as <-.
  - destruct (step e s) as [| |s1] eqn:E; try discriminate.
    apply (IH s1); [|assumption]. now apply (reachable_step today e s).
Qed.

Lemma reachable_wellFormed {num : Type} {numOps : Number num} (today : Date)
  (s : AppState num) :
  valid today -> reachable today s -> wellFormed s.
Proof.
  intros Hv Hr. induction Hr as [|e s s' _ IH Hstep].
  - now apply wellFormed_initial.
  - now apply (wellFormed_step e s).
Qed.

Lemma sessionEnd_reachable : reachable (march2025 15) sessionEnd.
Proof.
  apply (reachable_run (march2025 15) sampleSession (initialState (march2025 15)));
    [constructor | vm_compute; reflexivity].
Qed.

Lemma march15_valid : valid (march2025 15).
Proof. vm_compute. intuition discriminate. Qed.

(** X16.  In every state the user can reach from a first run, each list of
    the registry holds pairwise distinct names, none of them empty, none
    with white space at its ends. *)
Theorem registry_names_stay_distinct {num : Type} {numOps : Number num}
  (today : Date) (s : AppState num) :
  valid today -> reachable today s ->
  forall ty,
    NoDup (Categories.get (categories s) ty)
    /\ forall c, In c (Categories.get (categories s) ty) ->
                 c <> "" /\ trim c = c.
Proof.
  intros Hv Hr ty.
  destruct (reachable_wellFormed today s Hv Hr) as (Hnd & Hnames & _).
  split; [apply Hnd | apply Hnames].
Qed.

Lemma registry_names_stay_distinct_witness :
  Categories.get (categories sessionEnd) TxType.Expense
  = ["Food"; "Transport"; "Shopping"; "Bills"; "Pets"]
  /\ NoDup (Categories.get (categories sessionEnd) TxType.Expense).
Proof.
  split; [vm_compute; reflexivity|].
  exact (proj1 (registry_names_stay_distinct (march2025 15) sessionEnd
                  march15_valid sessionEnd_reachable TxType.Expense)).
Defined.

(** X17.  In no state the user can reach does a handler stop on
    [categoryToDelete.name] with [categoryToDelete] being [null]: the
    buttons of the conflict modal are on the screen only while the category
    to delete is set. *)
Theorem no_handler_reads_a_null_category {num : Type} {numOps : Number num}
  (today : Date) (s : AppState num) :
  valid today -> reachable today s ->
  forall e, step e s <> TypeError.
Proof.
  intros Hv Hr e.
  destruct (reachable_wellFormed today s Hv Hr) as (_ & _ & _ & Hmodal & _).
  destruct e; simpl; unfold whenever;
    repeat match goal with
           | |- (if ?b then _ else _) <> _ => destruct b eqn:?
           end;
    try discriminate.
  - destruct (handleDeleteCategoryInitiation cat s); discriminate.
  - destruct (categoryToDelete s); [discriminate|]. now elim Hmodal.
  - destruct (categoryToDelete s); [discriminate|].
    match goal with H : _ && _ = true |- _ =>
      apply andb_true_iff in H; destruct H as [H _] end.
    now elim Hmodal.
Qed.

Lemma no_handler_reads_a_null_category_witness :
  deleteModalVisible sessionEnd = true
  /\ forall e, step e sessionEnd <> TypeError.
Proof.
  split; [vm_compute; reflexivity|].
  exact (no_handler_reads_a_null_category (march2025 15) sessionEnd
           march15_valid sessionEnd_reachable).
Defined.

(** X18.  In every state the user can reach, a save that goes through
    stores a transaction whose category is, at that moment, a name of the
    registry list of its type. *)
Theorem saved_category_is_in_the_registry {num : Type} {numOps : Number num}
  (today : Date) (host : Host num) (s : AppState num) :
  valid today -> reachable today s ->
  Form.amount (newTransaction s) <> "" ->
  Form.category (newTransaction s) <> "" ->
  exists tx,
    transactions (snd (handleAddTransaction host s)) = tx :: transactions s
    /\ In (Tx.category tx)
         (Categories.get (categories (snd (handleAddTransaction host s)))
            (Tx.type tx)).
Proof.
  intros Hv Hr Ha Hc.
  destruct (reachable_wellFormed today s Hv Hr) as (_ & _ & Hform & _).
  destruct (handleAddTransaction_accepted host s Ha Hc)
    as (d & _ & _ & Htx & Hcat).
  eexists. split; [exact Htx|]. rewrite Hcat. simpl.
  destruct Hform as [He|Hin]; [contradiction | assumption].
Qed.

Lemma saved_category_is_in_the_registry_witness :
  let host := hostAt (march2025 15) 1742040000001 in
  exists tx,
    transactions (snd (handleAddTransaction host draftEnd))
    = tx :: transactions draftEnd
    /\ In (Tx.category tx)
         (Categories.get (categories (snd (handleAddTransaction host draftEnd)))
            (Tx.type tx)).
Proof.
  assert (Hr : reachable (march2025 15) draftEnd).
  { apply (reachable_run (march2025 15) (firstn 3 sampleSession)
             (initialState (march2025 15)));
      [constructor | vm_compute; reflexivity]. }
  apply (saved_category_is_in_the_registry (march2025 15)
           (hostAt (march2025 15) 1742040000001) draftEnd march15_valid Hr);
    vm_compute; discriminate.
Defined.

(** X19.  In every state the user can reach, every transaction of the
    ledger has a category that is not the empty string. *)
Theorem every_transaction_has_a_category {num : Type} {numOps : Number num}
  (today : Date) (s : AppState num) :
  valid today -> reachable today s ->
  forall t, In t (transactions s) -> Tx.category t <> "".
Proof.
  intros Hv Hr.
  now destruct (reachable_wellFormed today s Hv Hr) as (_ & _ & _ & _ & _ & Hled).
Qed.

Lemma every_transaction_has_a_category_witness :
  map Tx.category (transactions sessionEnd) = ["Food"]
  /\ forall t, In t (transactions sessionEnd) -> Tx.category t <> "".
Proof.
  split; [vm_compute; reflexivity|].
  exact (every_transaction_has_a_category (march2025 15) sessionEnd
           march15_valid sessionEnd_reachable).
Defined.

(** ** The month on display and the view *)



(** ** Adding a category, again *)

(** X21.  A category that was added is selected in the form, and it cannot
    be added twice: typing its name again, with white space around it or
    not, is refused with the "Category already exists." alert and changes
    nothing. *)
Theorem category_cannot_be_added_twice {num : Type} (s : AppState num) :
  let name := trim (newCategoryName s) in
  let s1 := snd (handleAddNewCategory s) in
  name <> "" ->
  ~ In name (Categories.get (categories s) (Form.type (newTransaction s))) ->
  Form.category (newTransaction s1) = name
  /\ Form.type (newTransaction s1) = Form.type (newTransaction s)
  /\ newCategoryName s1 = ""
  /\ forall text, trim text = name ->
       handleAddNewCategory (setNewCategoryName text s1)
       = (Some (mkAlert "Error" "Category already exists."),
          setNewCategoryName text s1).
Proof.
  intros name s1 Hne Hnin.
  assert (Hs1 : s1 = setIsAddingCategory false
                       (setNewCategoryName ""
                          (setNewTransaction
                             (Form.withCategory (newTransaction s) name)
                             (setCategories
                                (Categories.set (categories s)
                                   (Form.type (newTransaction s))
                                   (Categories.get (categories s)
                                      (Form.type (newTransaction s))
                                    ++ [name]))
                                s)))).
  { subst s1. unfold handleAddNewCategory. fold name.
    apply String.eqb_neq in Hne. rewrite Hne.
    destruct (includes _ name) eqn:I; [|reflexivity].
    apply includes_In in I. contradiction. }
  rewrite Hs1. simpl. repeat split.
  intros text Htext. unfold handleAddNewCategory. simpl. rewrite Htext.
  apply String.eqb_neq in Hne. rewrite Hne.
  rewrite Categories_get_set_same.
  replace (includes _ name) with true; [reflexivity|].
  symmetry. apply includes_In, in_or_app. right. simpl. auto.
Qed.

Lemma category_cannot_be_added_twice_witness :
  let s := setNewCategoryName "  Pet food "
             (addState sampleLedger "" "" (march2025 1)) in
  let s1 := snd (handleAddNewCategory s) in
  Form.category (newTransaction s1) = "Pet food"
  /\ Form.type (newTransaction s1) = Form.type (newTransaction s)
  /\ newCategoryName s1 = ""
  /\ forall text, trim text = "Pet food" ->
       handleAddNewCategory (setNewCategoryName text s1)
       = (Some (mkAlert "Error" "Category already exists."),
          setNewCategoryName text s1).
Proof.
  apply (category_cannot_be_added_twice
           (setNewCategoryName "  Pet food "
              (addState sampleLedger "" "" (march2025 1)))).
  - discriminate.
  - simpl. intuition discriminate.
Defined.

(** ** Deleting a category, again *)

(** X22.  A long press on a category that no transaction of the type of
    the form has asks for a confirmation; its "Delete" button then takes the
    name out of the list of that type and leaves the ledger and the list of
    the other type as they were. *)
Theorem unused_category_is_deleted_on_confirmation {num : Type}
  (C : string) (s : AppState num) :
  existsb (dependsOn C (Form.type (newTransaction s))) (transactions s) = false ->
  exists onPress,
    handleDeleteCategoryInitiation C s = ConfirmPrompt onPress
    /\ fst (onPress s) = None
    /\ transactions (snd (onPress s)) = transactions s
    /\ Categories.get (categories (snd (onPress s))) (Form.type (newTransaction s))
       = filter (fun c => negb (c =? C)%string)
           (Categories.get (categories s) (Form.type (newTransaction s)))
    /\ (forall ty, ty <> Form.type (newTransaction s) ->
          Categories.get (categories (snd (onPress s))) ty
          = Categories.get (categories s) ty).
Proof.
  intros Hnone. unfold handleDeleteCategoryInitiation.
  change (existsb _ (transactions s))
    with (existsb (dependsOn C (Form.type (newTransaction s))) (transactions s)).
  rewrite Hnone. eexists. split; [reflexivity|].
  destruct (executeCategoryDeletion_delete C (Form.type (newTransaction s)) s)
    as (Hfst & Ht & Hc).
  rewrite Hfst, Ht, Hc, Categories_get_set_same.
  split; [reflexivity|]. split; [|split; [reflexivity|]].
  - apply filter_all. intros t Hin. apply negb_true_iff.
    destruct (dependsOn C (Form.type (newTransaction s)) t) eqn:D;
      [|reflexivity].
    assert (existsb (dependsOn C (Form.type (newTransaction s)))
              (transactions s) = true)
      by (apply existsb_exists; eauto).
    congruence.
  - intros ty Hty. now apply Categories_get_set_other.
Qed.

Lemma unused_category_is_deleted_on_confirmation_witness :
  let s := addState sampleLedger "" "" (march2025 1) in
  exists onPress,
    handleDeleteCategoryInitiation "Shopping" s = ConfirmPrompt onPress
    /\ fst (onPress s) = None
    /\ transactions (snd (onPress s)) = transactions s
    /\ Categories.get (categories (snd (onPress s))) (Form.type (newTransaction s))
       = filter (fun c => negb (c =? "Shopping")%string)
           (Categories.get (categories s) (Form.type (newTransaction s)))
    /\ (forall ty, ty <> Form.type (newTransaction s) ->
          Categories.get (categories (snd (onPress s))) ty
          = Categories.get (categories s) ty).
Proof.
  apply (unused_category_is_deleted_on_confirmation "Shopping"
           (addState sampleLedger "" "" (march2025 1))).
  reflexivity.
Defined.

(** ** The grouped view holds every transaction once *)

Section Partition.

Context {num : Type} {numOps : Number num}.

Local Abbreviation Transaction := (Tx.t num).
Local Abbreviation Group := (Group.t num).

Lemma same_key_same_group (groups : list Group) (g g' : Group) :
  NoDup (map Group.key groups) -> In g groups -> In g' groups ->
  Group.key g = Group.key g' -> g = g'.
Proof.
  induction groups as [|g0 rest IH]; simpl; intros Hnd Hg Hg' Hk;
    [contradiction|].
  apply NoDup_cons_iff in Hnd. destruct Hnd as [Hnotin Hnd].
  destruct Hg as [<- | Hg], Hg' as [<- | Hg']; auto.
  - exfalso. apply Hnotin. rewrite Hk. now apply in_map.
  - exfalso. apply Hnotin. rewrite <- Hk. now apply in_map.
Qed.

(** Two groups that [t] has the pair of have the same key. *)
Lemma inGroup_same_key (g g' : Group) (t : Transaction) :
  Group.key g = groupKeyOf (Group.type g) (Group.category g) ->
  Group.key g' = groupKeyOf (Group.type g') (Group.category g') ->
  inGroup g t = true -> inGroup g' t = true -> Group.key g = Group.key g'.
Proof.
  intros Hk Hk' H H'. apply inGroup_true in H, H'.
  destruct H as [Ht Hc], H' as [Ht' Hc'].
  rewrite Hk, Hk'. congruence.
Qed.

Lemma one_group_matches (groups : list Group) (t : Transaction) :
  Forall (fun g => Group.key g
                   = groupKeyOf (Group.type g) (Group.category g)) groups ->
  NoDup (map Group.key groups) ->
  (exists g, In g groups /\ inGroup g t = true) ->
  List.length (filter (fun g => inGroup g t) groups) = 1%nat.
Proof.
  induction groups as [|g0 rest IH]; simpl; intros Hkeys Hnd (g & Hg & Hm);
    [contradiction|].
  apply Forall_cons_iff in Hkeys. destruct Hkeys as [Hk0 Hkeys].
  apply NoDup_cons_iff in Hnd. destruct Hnd as [Hnotin Hnd].
  destruct (inGroup g0 t) eqn:E; simpl.
  - f_equal. destruct (filter (fun g => inGroup g t) rest) as [|g1 l] eqn:F;
      [reflexivity|].
    assert (H1 : In g1 (filter (fun g => inGroup g t) rest))
      by (rewrite F; simpl; auto).
    apply filter_In in H1. destruct H1 as [H1 Hm1].
    exfalso. apply Hnotin.
    rewrite Forall_forall in Hkeys.
    rewrite (inGroup_same_key g0 g1 t Hk0 (Hkeys g1 H1) E Hm1).
    now apply in_map.
  - apply IH; try assumption.
    destruct Hg as [<- | Hg]; [congruence|]. eauto.
Qed.

Lemma members_counted (groups : list Group) (t : Transaction)
  (l : list Transaction) :
  List.length (List.concat (map (fun g => filter (inGroup g) (t :: l)) groups))
  = (List.length (filter (fun g => inGroup g t) groups)
     + List.length (List.concat (map (fun g => filter (inGroup g) l) groups)))%nat.
Proof.
  induction groups as [|g rest IH]; [reflexivity|].
  cbn [map List.concat]. rewrite !length_app, IH. cbn [filter].
  destruct (inGroup g t); simpl; lia.
Qed.

Lemma concat_length_Permutation {A : Type} (l l' : list (list A)) :
  Permutation l l' -> List.length (List.concat l) = List.length (List.concat l').
Proof.
  induction 1; simpl; rewrite ?length_app; lia.
Qed.

End Partition.

(** X23.  The grouped view holds every transaction of the filtered set
    once: each one is among the transactions of one group and of no other,
    a group holds no transaction from outside the set or of another type or
    category, and the groups together hold as many transactions as the
    set. *)
Theorem every_transaction_is_in_one_group {num : Type} {numOps : Number num}
  (filtered : list (Tx.t num)) :
  let groups := getGroupedTransactions filtered in
  (forall t, In t filtered ->
     exists g, In g groups /\ In t (Group.transactions g)
               /\ forall g', In g' groups -> In t (Group.transactions g') ->
                             g' = g)
  /\ (forall g t, In g groups -> In t (Group.transactions g) ->
        In t filtered
        /\ Tx.type t = Group.type g /\ Tx.category t = Group.category g)
  /\ List.length (List.concat (map Group.transactions groups))
     = List.length filtered.
Proof.
  intros groups. subst groups. unfold getGroupedTransactions.
  destruct (grouping_invariant filtered) as (Hall & Hnd & Hcov).
  set (unsorted := fold_left addToGroups filtered []) in *.
  assert (Hperm := sort_Permutation compareGroups unsorted).
  assert (Hin : forall g, In g (sort compareGroups unsorted) -> In g unsorted).
  { intros g. now apply Permutation_in. }
  assert (Hkeys : Forall (fun g => Group.key g
                            = groupKeyOf (Group.type g) (Group.category g))
                    unsorted).
  { eapply Forall_impl; [|exact Hall]. now intros g (Hk & _). }
  rewrite Forall_forall in Hall.
  assert (Hmem : forall g t, In g unsorted ->
                   (In t (Group.transactions g)
                    <-> In t filtered /\ inGroup g t = true)).
  { intros g t Hg. destruct (Hall g Hg) as (_ & Ht & _).
    rewrite Ht. apply filter_In. }
  split; [|split].
  - intros t Ht. destruct (Hcov t Ht) as (g & Hg & Hm).
    exists g. split; [now apply (Permutation_in _ (Permutation_sym Hperm))|].
    split; [now apply (Hmem g t Hg)|].
    intros g' Hg' Ht'. apply Hin in Hg'.
    apply (Hmem g' t Hg') in Ht'. destruct Ht' as [_ Hm'].
    apply (same_key_same_group unsorted); try assumption.
    rewrite Forall_forall in Hkeys.
    now apply (inGroup_same_key g' g t (Hkeys g' Hg') (Hkeys g Hg)).
  - intros g t Hg Ht. apply Hin in Hg. apply (Hmem g t Hg) in Ht.
    destruct Ht as [Ht Hm]. apply inGroup_true in Hm. tauto.
  - rewrite (concat_length_Permutation _ _
               (Permutation_map Group.transactions Hperm)).
    rewrite (map_ext_in Group.transactions
               (fun g => filter (inGroup g) filtered))
      by (intros g Hg; apply (Hall g Hg)).
    assert (Hcount : forall l, (forall t, In t l -> In t filtered) ->
              List.length (List.concat (map (fun g => filter (inGroup g) l) unsorted))
              = List.length l).
    { induction l as [|t l IH]; intros Hsub.
      - simpl. clear. induction unsorted as [|g rest IH]; simpl; auto.
      - rewrite members_counted, IH by (intros x Hx; apply Hsub; simpl; auto).
        rewrite one_group_matches; [reflexivity | assumption | assumption |].
        apply Hcov, Hsub. simpl; auto. }
    apply Hcount. auto.
Qed.

Lemma Categories_set_set (c : Categories.t) (ty : TxType.t)
  (l l' : list string) :
  Categories.set (Categories.set c ty l) ty l' = Categories.set c ty l'.
Proof. now destruct ty. Qed.

(** X24.  Deleting a category with its transactions a second time changes
    neither the ledger nor the registry. *)
Theorem deleting_again_changes_nothing {num : Type} (C : string)
  (T : TxType.t) (s : AppState num) :
  let s1 := snd (executeCategoryDeletion C T "delete" s) in
  let s2 := snd (executeCategoryDeletion C T "delete" s1) in
  transactions s2 = transactions s1 /\ categories s2 = categories s1.
Proof.
  intros s1 s2.
  destruct (executeCategoryDeletion_delete C T s) as (_ & Ht1 & Hc1).
  destruct (executeCategoryDeletion_delete C T s1) as (_ & Ht2 & Hc2).
  fold s1 in Ht1, Hc1. fold s2 in Ht2, Hc2.
  rewrite Ht2, Hc2, Ht1, Hc1. split.
  - now apply filter_filter_implied.
  - rewrite Categories_get_set_same, Categories_set_set. f_equal.
    now apply filter_filter_implied.
Qed.
